(** * Address/network identity resolution and message verification

    A shallow embedding of the [Utils] object of
    [packages/crypto-wallet-core/src/constants/tokens.ts] (the part after the
    token tables): [hashMessage], [verifyMessage] and its [_try*] helpers,
    [getAddressCoin], [translateAddress], [compareNetworks], [getNetworkName],
    [getGenericName] and [getNetworkType]; [isObject], [getMissingFields],
    [castToBool], [checkValueInCollection], [parseVersion], [parseAppVersion],
    [getIpFromReq], [sortAsc] and [sortDesc]; and of the handlers that create
    and update a wallet in [packages/bitcore-node/src/routes/api/wallet.ts].
    The functions that format amounts work on floating-point numbers and
    locales and are not embedded.

    Conventions of the model.
    - A JavaScript string is a [string] holding its UTF-8 encoding, so that
      [Buffer.from(text)] is [list_byte_of_string]; network names and coin
      names are ASCII.
    - A [Buffer] is a [list byte].
    - A call that may throw returns a [result]; [try { .. } catch] is a match
      on it.
    - Plain objects used as tables ([Constants.NETWORK_ALIASES]) are finite
      maps of their own properties: the lookup of the map is the lookup of
      the object on every key the object does not inherit from
      [Object.prototype] ([plainKey]).
    - [toLowerCase] and the hex decoding of [Buffer.from] are the runtime's
      on ASCII text ([isAscii]); statements that depend on either say so.
    - The libraries the file calls but does not define (the per-coin address
      classes of [bitcore-lib*], [secp256k1], [Config], [Constants]) are
      [Section] variables. SHA-256 is defined here and checked against the
      published test vectors. *)

From Stdlib Require Import ZArith List Bool Lia Sorted Permutation.
From Stdlib.Strings Require Import Ascii String Byte.
From stdpp Require Import base option list gmap strings.
Import ListNotations.

Local Open Scope string_scope.
Local Open Scope list_scope.

(** ** Exceptions and results *)

(** The error classes that can cross [Utils]' boundary: the runtime's
    [TypeError], the [IllegalArgumentError] of [preconditions]'
    [$.checkArgument], and any other named error a library throws. *)
Inductive error : Type :=
  | TypeError
  | IllegalArgumentError
  | OtherError (name : string).

Inductive result (A : Type) : Type :=
  | Ok (a : A)
  | Throw (e : error).
Arguments Ok {A} a.
Arguments Throw {A} e.

#[global] Instance result_ret : MRet result := fun A a => Ok a.
#[global] Instance result_bind : MBind result := fun A B k r =>
  match r with
  | Ok a => k a
  | Throw e => Throw e
  end.

(** [try { return r } catch (e) { return d }] *)
Definition try_catch {A} (r : result A) (d : A) : A :=
  match r with
  | Ok a => a
  | Throw _ => d
  end.

Definition returns {A} (r : result A) : bool :=
  match r with Ok _ => true | Throw _ => false end.

(** ** SHA-256 (FIPS 180-4) on 32-bit words kept in [Z] *)

Module SHA256.
Local Open Scope Z_scope.

Definition wrap32 (x : Z) : Z := x mod 2 ^ 32.
Definition add32 (a b : Z) : Z := wrap32 (a + b).
Definition not32 (x : Z) : Z := Z.lxor x 0xffffffff.
Definition rotr (n x : Z) : Z :=
  Z.lor (Z.shiftr x n) (wrap32 (Z.shiftl x (32 - n))).

Definition Ch (x y z : Z) : Z := Z.lxor (Z.land x y) (Z.land (not32 x) z).
Definition Maj (x y z : Z) : Z :=
  Z.lxor (Z.lxor (Z.land x y) (Z.land x z)) (Z.land y z).
Definition Sigma0 (x : Z) : Z := Z.lxor (Z.lxor (rotr 2 x) (rotr 13 x)) (rotr 22 x).
Definition Sigma1 (x : Z) : Z := Z.lxor (Z.lxor (rotr 6 x) (rotr 11 x)) (rotr 25 x).
Definition sigma0 (x : Z) : Z := Z.lxor (Z.lxor (rotr 7 x) (rotr 18 x)) (Z.shiftr x 3).
Definition sigma1 (x : Z) : Z := Z.lxor (Z.lxor (rotr 17 x) (rotr 19 x)) (Z.shiftr x 10).

(** The constants are derived as the standard defines them: the first 32
    bits of the fractional parts of the cube roots (round constants) and of
    the square roots (initial hash value) of the first primes. *)
Definition is_prime (n : nat) : bool :=
  forallb (fun d => negb (n mod d =? 0)%nat) (seq 2 (n - 2)).

Definition primes : list Z :=
  Eval vm_compute in List.map Z.of_nat (List.filter is_prime (seq 2 310)).

(** Integer cube root, one bit at a time from bit [bits - 1] down. *)
Fixpoint cube_root (bits : nat) (n r : Z) : Z :=
  match bits with
  | O => r
  | S b =>
      let r' := r + 2 ^ Z.of_nat b in
      cube_root b n (if r' * r' * r' <=? n then r' else r)
  end.

Definition K : list Z :=
  Eval vm_compute in
    List.map (fun p => wrap32 (cube_root 36 (p * 2 ^ 96) 0)) primes.

Definition initial_words : list Z :=
  Eval vm_compute in
    List.map (fun p => wrap32 (Z.sqrt (p * 2 ^ 64))) (firstn 8 primes).

(** The eight working variables, also the chaining value. *)
Record state : Type := mkState { sa : Z; sb : Z; sc : Z; sd : Z; se : Z; sf : Z; sg : Z; sh : Z }.

Definition H0 : state :=
  match initial_words with
  | [a; b; c; d; e; f; g; h] => mkState a b c d e f g h
  | _ => mkState 0 0 0 0 0 0 0 0
  end.

(** One round: [w] is the schedule word of the round, [k] its constant. *)
Definition round (s : state) (k w : Z) : state :=
  let t1 := add32 (add32 (add32 (add32 (sh s) (Sigma1 (se s))) (Ch (se s) (sf s) (sg s))) k) w in
  let t2 := add32 (Sigma0 (sa s)) (Maj (sa s) (sb s) (sc s)) in
  mkState (add32 t1 t2) (sa s) (sb s) (sc s) (add32 (sd s) t1) (se s) (sf s) (sg s).

(** The message schedule as a sliding window of the last 16 words: the head
    is the word of the current round, and the word 16 rounds ahead is
    appended. *)
Definition next_word (win : list Z) : Z :=
  add32 (add32 (add32 (sigma1 (nth 14 win 0)) (nth 9 win 0)) (sigma0 (nth 1 win 0))) (nth 0 win 0).

Fixpoint rounds (ks : list Z) (win : list Z) (s : state) : state :=
  match ks with
  | [] => s
  | k :: ks' => rounds ks' (tl win ++ [next_word win]) (round s k (hd 0 win))
  end.

Definition compress (h : state) (block : list Z) : state :=
  let s := rounds K block h in
  mkState (add32 (sa h) (sa s)) (add32 (sb h) (sb s)) (add32 (sc h) (sc s)) (add32 (sd h) (sd s))
          (add32 (se h) (se s)) (add32 (sf h) (sf s)) (add32 (sg h) (sg s)) (add32 (sh h) (sh s)).

(** Big-endian packing of octets (as [Z]) into words, and back. *)
Fixpoint words_of_octets (l : list Z) : list Z :=
  match l with
  | b0 :: b1 :: b2 :: b3 :: rest =>
      (Z.lor (Z.lor (Z.lor (Z.shiftl b0 24) (Z.shiftl b1 16)) (Z.shiftl b2 8)) b3) :: words_of_octets rest
  | _ => []
  end.

Definition octets_of_word (w : Z) : list Z :=
  [ Z.land (Z.shiftr w 24) 0xff; Z.land (Z.shiftr w 16) 0xff; Z.land (Z.shiftr w 8) 0xff; Z.land w 0xff ].

(** Padding: a 1 bit, zeros up to 56 mod 64, the bit length on 64 bits. *)
Definition padding (len : nat) : list Z :=
  let zeros := ((64 + 55 - (len mod 64)) mod 64)%nat in
  let bits := 8 * Z.of_nat len in
  0x80 :: repeat 0 zeros
    ++ octets_of_word (wrap32 (Z.shiftr bits 32)) ++ octets_of_word (wrap32 bits).

Fixpoint blocks (n : nat) (h : state) (ws : list Z) : state :=
  match n with
  | O => h
  | S n' => blocks n' (compress h (firstn 16 ws)) (skipn 16 ws)
  end.

Definition octet_of_byte (b : byte) : Z := Z.of_N (Byte.to_N b).
Definition byte_of_octet (z : Z) : byte :=
  match Byte.of_N (Z.to_N (z mod 256)) with
  | Some b => b
  | None => x00
  end.

Definition digest_octets (s : state) : list Z :=
  octets_of_word (sa s) ++ octets_of_word (sb s) ++ octets_of_word (sc s) ++ octets_of_word (sd s)
    ++ octets_of_word (se s) ++ octets_of_word (sf s) ++ octets_of_word (sg s) ++ octets_of_word (sh s).

Definition sha256 (msg : list byte) : list byte :=
  let padded := List.map octet_of_byte msg ++ padding (List.length msg) in
  let ws := words_of_octets padded in
  List.map byte_of_octet (digest_octets (blocks (List.length ws / 16) H0 ws)).

End SHA256.

(** Lower-case hexadecimal rendering of a buffer, for reading digests. *)
Definition hex_digit (n : N) : ascii :=
  if (n <? 10)%N then ascii_of_N (48 + n) else ascii_of_N (87 + n).

Fixpoint toHex (b : list byte) : string :=
  match b with
  | [] => EmptyString
  | x :: rest =>
      let n := Byte.to_N x in
      String (hex_digit (n / 16)) (String (hex_digit (n mod 16)) (toHex rest))
  end.

(** ** JavaScript values reaching the verifier *)

(** The arguments [hashMessage] and [verifyMessage] are called with: absent
    values, text, an ordered sequence of text segments, or raw bytes. *)
Inductive jsval : Type :=
  | JUndefined
  | JNull
  | JStr (s : string)
  | JArr (items : list string)
  | JBuf (b : list byte).

(** ToBoolean: of these, only [undefined], [null] and the empty string are
    falsy; an array or a Buffer is truthy even when empty. *)
Definition truthy (v : jsval) : bool :=
  match v with
  | JUndefined | JNull => false
  | JStr s => negb (String.eqb s "")
  | JArr _ | JBuf _ => true
  end.

(** [$.checkArgument(expression)] of [preconditions]. *)
Definition checkArgument (v : jsval) : result unit :=
  if truthy v then Ok tt else Throw IllegalArgumentError.

Definition Array_isArray (v : jsval) : bool :=
  match v with JArr _ => true | _ => false end.

Definition Buffer_isBuffer (v : jsval) : bool :=
  match v with JBuf _ => true | _ => false end.

(** [Buffer.from(s, 'hex')] on a string, as Node documents it: pairs of
    hexadecimal digits are decoded until the first pair that is not one; a
    trailing single digit is dropped. It does not throw. *)
Definition hex_value (c : ascii) : option N :=
  let n := N_of_ascii c in
  if ((48 <=? n) && (n <=? 57))%N then Some (n - 48)%N
  else if ((97 <=? n) && (n <=? 102))%N then Some (n - 87)%N
  else if ((65 <=? n) && (n <=? 70))%N then Some (n - 55)%N
  else None.

Definition byte_of_N (n : N) : byte :=
  match Byte.of_N n with
  | Some b => b
  | None => x00
  end.

Fixpoint hexDecode (s : string) : list byte :=
  match s with
  | String hi (String lo rest) =>
      match hex_value hi, hex_value lo with
      | Some h, Some l => byte_of_N (16 * h + l) :: hexDecode rest
      | _, _ => []
      end
  | _ => []
  end.

(** [bitcore.encoding.BufferReader]: a buffer and a read position;
    [readReverse()] without a length takes [buf.length] octets from the
    position and reverses them. *)
Record BufferReader : Type := mkBufferReader { buf : list byte; pos : nat }.

Definition new_BufferReader (b : list byte) : BufferReader := mkBufferReader b 0.

Definition readReverse (r : BufferReader) : list byte :=
  rev (firstn (List.length (buf r)) (skipn (pos r) (buf r))).

(** [crypto.Hash.sha256sha256] *)
Definition sha256sha256 (b : list byte) : list byte :=
  SHA256.sha256 (SHA256.sha256 b).

#[global] Arguments SHA256.sha256 : simpl never.
#[global] Arguments sha256sha256 : simpl never.

(** [message.join('')] on an array, the message itself otherwise. *)
Definition flatten (message : jsval) : jsval :=
  match message with
  | JArr items => JStr (String.concat "" items)
  | _ => message
  end.

(** A message [verifyMessage] can hash: truthy, and not flattened to the
    empty string. *)
Definition nonEmptyMessage (message : jsval) : bool :=
  truthy message && truthy (flatten message).

(** ** Coins and address objects *)

(** The keys of [Bitcore_]. *)
Inductive Coin : Type := btc | bch | doge | ltc.

Definition coinName (c : Coin) : string :=
  match c with
  | btc => "btc"
  | bch => "bch"
  | doge => "doge"
  | ltc => "ltc"
  end.

(** [Bitcore_[key]], where the key may be [undefined] ([None]): the library
    of a coin, or [undefined]. *)
Definition Bitcore_ (key : option string) : option Coin :=
  match key with
  | None => None
  | Some k =>
      if String.eqb k "btc" then Some btc
      else if String.eqb k "bch" then Some bch
      else if String.eqb k "doge" then Some doge
      else if String.eqb k "ltc" then Some ltc
      else None
  end.

(** What [address.toObject()] returns and [Address.fromObject] takes. *)
Record AddressObject : Type := mkAddressObject {
  hash : string;
  type : string;
  network : string
}.

(** The order in which [getAddressCoin] tries the libraries. *)
Definition priority : list Coin := [btc; bch; doge; ltc].

(** The position of a library in that order. *)
Definition coinRank (c : Coin) : nat :=
  match c with
  | btc => 0
  | bch => 1
  | doge => 2
  | ltc => 3
  end.

(** The typed error the specification names for an unclassifiable source
    address. No statement of the source constructs it. *)
Definition InvalidSourceAddress : error := OtherError "InvalidSourceAddress".

(** ** Strings and loose values of the network functions *)

(** [String.prototype.toLowerCase] on ASCII text. *)
Definition lowerChar (c : ascii) : ascii :=
  let n := N_of_ascii c in
  if ((65 <=? n) && (n <=? 90))%N then ascii_of_N (n + 32) else c.

Fixpoint toLowerCase (s : string) : string :=
  match s with
  | EmptyString => EmptyString
  | String c rest => String (lowerChar c) (toLowerCase rest)
  end.

(** [array.includes(v)] where [v] may be [null] ([None]). *)
Definition includes (l : list string) (v : option string) : bool :=
  match v with
  | Some s => existsb (String.eqb s) l
  | None => false
  end.

(** [a == b] on values that are a string or [null]. *)
Definition looseEq (a b : option string) : bool :=
  match a, b with
  | Some x, Some y => String.eqb x y
  | None, None => true
  | _, _ => false
  end.

(** ** Values and strings of the other [Utils] functions *)

(** What the loosely typed functions are handed: absent values, booleans,
    text, arrays of text and plain objects with text properties. *)
Inductive jsany : Type :=
  | AUndefined
  | ANull
  | ABool (b : bool)
  | AStr (s : string)
  | AArr (items : list string)
  | AObj (props : gmap string string).

Definition truthyA (v : jsany) : bool :=
  match v with
  | AUndefined | ANull => false
  | ABool b => b
  | AStr s => negb (String.eqb s "")
  | AArr _ | AObj _ => true
  end.

(** [v?.toString()]: [undefined] ([None]) on [undefined] and [null]. *)
Definition toStringA (v : jsany) : option string :=
  match v with
  | AUndefined | ANull => None
  | ABool true => Some "true"
  | ABool false => Some "false"
  | AStr s => Some s
  | AArr items => Some (String.concat "," items)
  | AObj _ => Some "[object Object]"
  end.

(** [s.split(sep)] for a separator of one character: never empty. *)
Fixpoint split (sep : ascii) (s : string) : list string :=
  match s with
  | EmptyString => [EmptyString]
  | String c rest =>
      if Ascii.eqb c sep then EmptyString :: split sep rest
      else match split sep rest with
           | h :: t => String c h :: t
           | [] => [String c EmptyString]
           end
  end.

(** How many times a character occurs in a text. *)
Fixpoint occurrences (c : ascii) (s : string) : nat :=
  match s with
  | EmptyString => 0
  | String d rest => (if Ascii.eqb d c then 1 else 0) + occurrences c rest
  end.

(** [s.indexOf(needle)]: the first position where [needle] starts, [-1]
    ([None]) when there is none. *)
Fixpoint indexOf (needle s : string) : option nat :=
  if String.prefix needle s then Some 0
  else match s with
       | EmptyString => None
       | String _ rest => option_map S (indexOf needle rest)
       end.

(** [s.substr(start)] *)
Fixpoint substr (start : nat) (s : string) : string :=
  match start, s with
  | O, _ => s
  | S n, EmptyString => EmptyString
  | S n, String _ rest => substr n rest
  end.

(** [s.replace(/\D/g, '')]: the decimal digits of [s]. *)
Definition isDigit (c : ascii) : bool :=
  let n := N_of_ascii c in ((48 <=? n) && (n <=? 57))%N.

Fixpoint removeNonDigits (s : string) : string :=
  match s with
  | EmptyString => EmptyString
  | String c rest =>
      if isDigit c then String c (removeNonDigits rest) else removeNonDigits rest
  end.

(** [s.length]: UTF-16 code units of the text held as UTF-8. A lead octet
    counts one unit, two when it opens a four-octet sequence; continuation
    octets count none. *)
Definition utf16Units (c : ascii) : nat :=
  let n := N_of_ascii c in
  if (n <? 128)%N then 1
  else if (n <? 192)%N then 0
  else if (n <? 240)%N then 1
  else 2.

Fixpoint jsLength (s : string) : nat :=
  match s with
  | EmptyString => 0
  | String c rest => utf16Units c + jsLength rest
  end.

(** A property of a result object: not set, [null], or a value. *)
Inductive field (A : Type) : Type :=
  | Unset
  | Null
  | Value (a : A).
Arguments Unset {A}.
Arguments Null {A}.
Arguments Value {A} a.

(** The objects [parseVersion] and [parseAppVersion] build. *)
Record ParsedVersion (Number : Type) : Type := mkParsedVersion {
  agent : string;
  major : field Number;
  minor : field Number;
  patch : field Number
}.
Arguments mkParsedVersion {Number}.
Arguments agent {Number}.
Arguments major {Number}.
Arguments minor {Number}.
Arguments patch {Number}.

Record ParsedApp (Number : Type) : Type := mkParsedApp {
  app : string;
  appMajor : field Number;
  appMinor : field Number;
  appPatch : field Number
}.
Arguments mkParsedApp {Number}.
Arguments app {Number}.
Arguments appMajor {Number}.
Arguments appMinor {Number}.
Arguments appPatch {Number}.

(** The parts of an HTTP request [getIpFromReq] reads. *)
Record Connection : Type := mkConnection { remoteAddress : option string }.

Record Request : Type := mkRequest {
  headers : option (gmap string string);
  ip : option string;
  connection : option Connection
}.

(** A string, possibly absent, as a condition. *)
Definition nonEmpty (o : option string) : option string :=
  match o with
  | Some s => if String.eqb s "" then None else Some s
  | None => None
  end.

(** ** The scope of the string and table models

    [toLowerCase] and [hexDecode] are the runtime's functions on ASCII
    text, and a finite map is a plain object's lookup on keys that the
    object does not inherit from [Object.prototype]. *)
Definition isAscii (s : string) : bool :=
  forallb (fun c => (N_of_ascii c <? 128)%N) (list_ascii_of_string s).

(** The property names every plain object inherits. *)
Definition inheritedKeys : list string :=
  [ "constructor"; "__proto__"; "hasOwnProperty"; "isPrototypeOf";
    "propertyIsEnumerable"; "toLocaleString"; "toString"; "valueOf";
    "__defineGetter__"; "__defineSetter__"; "__lookupGetter__"; "__lookupSetter__" ].

(** A key on which the lookup in a table sees own properties only. *)
Definition plainKey (key : string) : bool :=
  negb (existsb (String.eqb key) inheritedKeys).

(** A network name [compareNetworks] lowercases and looks up faithfully. *)
Definition plainName (network : string) : bool :=
  isAscii network && plainKey (toLowerCase network).

(** ** The [Utils] object *)

Module Utils.

Section Verifier.

(** What [Buffer.from(array)] makes of a string element: ToNumber, then the
    low eight bits. *)
Variable octetOfString : string -> byte.

(** [secp256k1.signatureImport]: DER to the internal 64-octet form; throws
    on what it cannot parse. *)
Variable signatureImport : list byte -> result (list byte).

(** [secp256k1.ecdsaVerify(sig, msg32, pubkey)]: a boolean, or an
    exception on arguments it refuses. *)
Variable ecdsaVerify : list byte -> list byte -> list byte -> result bool.

(** [Buffer.from(value)] *)
Definition Buffer_from (v : jsval) : result (list byte) :=
  match v with
  | JStr s => Ok (list_byte_of_string s)
  | JArr items => Ok (List.map octetOfString items)
  | JBuf b => Ok b
  | JUndefined | JNull => Throw TypeError
  end.

(** [Buffer.from(value, 'hex')] *)
Definition Buffer_from_hex (v : jsval) : result (list byte) :=
  match v with
  | JStr s => Ok (hexDecode s)
  | JArr items => Ok (List.map octetOfString items)
  | JBuf b => Ok b
  | JUndefined | JNull => Throw TypeError
  end.

(** [hashMessage(text, noReverse)]; an omitted [noReverse] is [false]. *)
Definition hashMessage (text : jsval) (noReverse : bool) : result (list byte) :=
  _ ← checkArgument text;
  buf ← Buffer_from text;
  let ret := sha256sha256 buf in
  if negb noReverse
  then Ok (readReverse (new_BufferReader ret))
  else Ok ret.

(** The [_try*] helpers return a value or [false]; [None] is that [false]. *)
Definition _tryImportPublicKey (publicKey : jsval) : option (list byte) :=
  match (if Buffer_isBuffer publicKey
         then match publicKey with JBuf b => Ok b | _ => Throw TypeError end
         else Buffer_from_hex publicKey) with
  | Ok publicKeyBuffer => Some publicKeyBuffer
  | Throw _ => None
  end.

Definition _tryImportSignature (signature : jsval) : option (list byte) :=
  match (signatureBuffer ← (if Buffer_isBuffer signature
                            then match signature with JBuf b => Ok b | _ => Throw TypeError end
                            else Buffer_from_hex signature);
         signatureImport signatureBuffer) with
  | Ok sig => Some sig
  | Throw _ => None
  end.

Definition _tryVerifyMessage (hash sig publicKeyBuffer : list byte) : bool :=
  try_catch (ecdsaVerify sig hash publicKeyBuffer) false.

Definition verifyMessage (message signature publicKey : jsval) : result bool :=
  _ ← checkArgument message;
  let flattenedMessage := if Array_isArray message then flatten message else message in
  hash ← hashMessage flattenedMessage true;
  match _tryImportSignature signature with
  | None => Ok false
  | Some sig =>
      match _tryImportPublicKey publicKey with
      | None => Ok false
      | Some publicKeyBuffer => Ok (_tryVerifyMessage hash sig publicKeyBuffer)
      end
  end.

(** The outcome of [verifyMessage] once the message is hashed to [hash]:
    the three steps after the hashing, as one expression. *)
Definition verdict (hash : list byte) (signature publicKey : jsval) : bool :=
  match _tryImportSignature signature, _tryImportPublicKey publicKey with
  | Some sig, Some publicKeyBuffer => _tryVerifyMessage hash sig publicKeyBuffer
  | _, _ => false
  end.

End Verifier.

Section Resolver.

(** The address classes of the four libraries: the constructor on a string
    (which throws on a string outside the coin's grammar), [fromObject],
    and the methods of an address. *)
Variable Address : Type.
Variable new_Address : Coin -> string -> result Address.
Variable Address_fromObject : Coin -> AddressObject -> result Address.
Variable toObject : Address -> AddressObject.
Variable toString : Address -> string.
Variable toLegacyAddress : Address -> string.

(** [undefined] is [None]. *)
Definition getAddressCoin (address : string) : option string :=
  match new_Address btc address with
  | Ok _ => Some "btc"
  | Throw _ =>
      match new_Address bch address with
      | Ok _ => Some "bch"
      | Throw _ =>
          match new_Address doge address with
          | Ok _ => Some "doge"
          | Throw _ =>
              match new_Address ltc address with
              | Ok _ => Some "ltc"
              | Throw _ => None
              end
          end
      end
  end.

(** [Bitcore_[key].Address]: reading a property of [undefined] is a
    [TypeError]. *)
Definition Bitcore_Address (key : option string) : result Coin :=
  match Bitcore_ key with
  | Some lib => Ok lib
  | None => Throw TypeError
  end.

Definition translateAddress (address coin : string) : result string :=
  let origCoin := getAddressCoin address in
  origLib ← Bitcore_Address origCoin;
  origAddress ← new_Address origLib address;
  let origObj := toObject origAddress in
  lib ← Bitcore_Address (Some coin);
  result ← Address_fromObject lib origObj;
  Ok (if String.eqb coin "bch" then toLegacyAddress result else toString result).

(** Whether the constructor of a library takes the string. *)
Definition accepted (address : string) (lib : Coin) : bool :=
  returns (new_Address lib address).

(** The last line of [translateAddress]: how the result is written. *)
Definition render (coin : string) (result : Address) : string :=
  if String.eqb coin "bch" then toLegacyAddress result else toString result.

(** What is asked of the address libraries, about the objects they read
    from addresses and about the hash alone:
    - a library reads what it writes, and reads the hash it was given;
    - where two libraries read the same string, they read the same hash
      (on the network they need not agree). *)
Definition ReadsOwnRendering : Prop :=
  forall lib0 s0 a0 lib r,
    new_Address lib0 s0 = Ok a0 ->
    Address_fromObject lib (toObject a0) = Ok r ->
    exists a, new_Address lib (render (coinName lib) r) = Ok a.

Definition ReadsBackHash : Prop :=
  forall lib0 s0 a0 lib r,
    new_Address lib0 s0 = Ok a0 ->
    Address_fromObject lib (toObject a0) = Ok r ->
    exists a, new_Address lib (render (coinName lib) r) = Ok a
              /\ hash (toObject a) = hash (toObject a0).

Definition AgreeOnHash : Prop :=
  forall lib lib' s a a',
    new_Address lib s = Ok a -> new_Address lib' s = Ok a' ->
    hash (toObject a) = hash (toObject a').

End Resolver.

Section Networks.

(** [Constants.NETWORK_ALIASES]: per chain, generic name to specific name. *)
Variable NETWORK_ALIASES : gmap string (gmap string string).

(** [Config.allowRegtest], as the condition sees it. *)
Variable allowRegtest : bool.

Definition getNetworkName (chain network : string) : string :=
  match NETWORK_ALIASES !! chain with
  | Some aliases =>
      match aliases !! network with
      | Some name => if String.eqb name "" then network else name
      | None => network
      end
  | None => network
  end.

Definition getNetworkType (network : option string) : string :=
  if includes ["mainnet"; "livenet"] network then "mainnet"
  else if looseEq network (Some "regtest") then "regtest"
  else "testnet".

Definition compareNetworks (network1 network2 chain : string) : bool :=
  let network1 :=
    if String.eqb network1 "" then None
    else Some (getNetworkName chain (toLowerCase network1)) in
  let network2 :=
    if String.eqb network2 "" then None
    else Some (getNetworkName chain (toLowerCase network2)) in
  if looseEq network1 network2 then true
  else if allowRegtest
          && includes ["testnet"; "regtest"] (Some (getNetworkType network1))
          && includes ["testnet"; "regtest"] (Some (getNetworkType network2))
       then true
  else false.

(** The resolution in the words of the specification (direction
    ToSpecific): the lowercased name is looked up as a key of the fork's
    table; the specific name if present, the input otherwise. *)
Definition resolveNetworkAlias_ToSpecific_spec (fork network : string) : string :=
  match NETWORK_ALIASES !! fork with
  | Some aliases =>
      match aliases !! toLowerCase network with
      | Some name => name
      | None => network
      end
  | None => network
  end.

(** The compatibility in the words of the claim, with the types of the two
    names themselves in (ii). *)
Definition networksCompatible_spec (network1 network2 fork : string) : bool :=
  String.eqb (resolveNetworkAlias_ToSpecific_spec fork network1)
             (resolveNetworkAlias_ToSpecific_spec fork network2)
  || (allowRegtest
      && includes ["testnet"; "regtest"] (Some (getNetworkType (Some network1)))
      && includes ["testnet"; "regtest"] (Some (getNetworkType (Some network2)))).

(** [Object.keys(Constants.NETWORK_ALIASES)]: the chains of the table, in
    the order of the object's keys. *)
Variable NETWORK_CHAINS : list string.

(** [Constants.NETWORK_ALIASES[key].testnet === network]. Every key that
    [Object.keys] lists has its entry; the other branch is not reached. *)
Definition testnetAliasIs (network key : string) : bool :=
  match NETWORK_ALIASES !! key with
  | Some aliases => looseEq (aliases !! "testnet") (Some network)
  | None => false
  end.

(** [find] gives the first such key or [undefined]; [!!] of it is false for
    [undefined] and for the empty key. *)
Definition getGenericName (network : string) : string :=
  if String.eqb network "mainnet" then "livenet"
  else
    let isTestnet :=
      match List.find (testnetAliasIs network) NETWORK_CHAINS with
      | Some key => negb (String.eqb key "")
      | None => false
      end in
    if isTestnet then "testnet" else network.

End Networks.

Section Misc.

(** As a value: the falsy operand itself, or the boolean. *)
Definition isObject (obj : jsany) : jsany :=
  if truthyA obj
  then ABool (match obj with AObj _ => true | _ => false end)
  else obj.

(** [obj.hasOwnProperty(arg)] on a plain object with the given own
    properties: the method is itself looked up on the object, so an own
    property of that name (which here holds text) is called in its place, a
    [TypeError]. *)
Definition hasOwnProperty (props : gmap string string) (arg : string) : result bool :=
  match props !! "hasOwnProperty" with
  | Some _ => Throw TypeError
  | None => Ok (bool_decide (is_Some (props !! arg)))
  end.

(** [args.filter(arg => !obj.hasOwnProperty(arg))] *)
Fixpoint filterMissing (props : gmap string string) (args : list string)
  : result (list string) :=
  match args with
  | [] => Ok []
  | arg :: rest =>
      owned ← hasOwnProperty props arg;
      missing ← filterMissing props rest;
      Ok (if negb owned then arg :: missing else missing)
  end.

(** [args] may be [undefined] ([None]). Past [isObject] the value is a plain
    object. *)
Definition getMissingFields (obj : jsany) (args : option (list string))
  : result (list string) :=
  let args := match args with Some l => l | None => [] end in
  if negb (truthyA (isObject obj)) then Ok args
  else match obj with
       | AObj props => filterMissing props args
       | _ => Ok args
       end.

Definition castToBool (input : jsany) : bool :=
  let input := toStringA input in
  if looseEq (option_map toLowerCase input) (Some "true") || looseEq input (Some "1")
  then true
  else false.

(** [Object.values(collection)] of a plain object. *)
Definition checkValueInCollection (value : jsany) (collection : gmap string string) : bool :=
  match value with
  | AStr s => includes (List.map snd (map_to_list collection)) (Some s)
  | _ => false
  end.

(** [parseInt] and the type of what it returns. *)
Variable Number : Type.
Variable parseInt : string -> Number.

(** [x[i] ? parseInt(x[i]) : null] *)
Definition numberAt (x : list string) (i : nat) : field Number :=
  match nonEmpty (nth_error x i) with
  | Some s => Value (parseInt s)
  | None => Null
  end.

(** [null] is [None]. *)
Definition parseVersion (version : string) : option (ParsedVersion Number) :=
  if String.eqb version "" then None
  else
    let x := split "-" version in
    if negb (List.length x =? 2)%nat
    then Some (mkParsedVersion version Unset Unset Unset)
    else
      let x0 := nth 0 x "" in
      let agent := if includes ["bwc"; "bws"] (Some x0) then "bwc" else x0 in
      let x := split "." (nth 1 x "") in
      Some (mkParsedVersion agent (numberAt x 0) (numberAt x 1) (numberAt x 2)).

(** What follows the name of the application, parsed. *)
Definition parseAppNumbers (app agent : string) (w : nat) : ParsedApp Number :=
  let version := substr (w + String.length app) agent in
  let x := split "." version in
  mkParsedApp app
    (match nonEmpty (nth_error x 0) with
     | Some s => Value (parseInt (removeNonDigits s))
     | None => Null
     end)
    (numberAt x 1) (numberAt x 2).

Definition parseAppVersion (agent : string) : option (ParsedApp Number) :=
  if String.eqb agent "" then None
  else
    let agent := toLowerCase agent in
    match indexOf "copay" agent with
    | Some w => Some (parseAppNumbers "copay" agent w)
    | None =>
        match indexOf "bitpay" agent with
        | Some w => Some (parseAppNumbers "bitpay" agent w)
        | None => Some (mkParsedApp "other" Unset Unset Unset)
        end
    end.

(** [header.split(',')[0]] *)
Definition firstItem (header : string) : string := hd "" (split "," header).

Definition getIpFromReq (req : Request) : string :=
  let fromHeaders :=
    match headers req with
    | Some h =>
        match nonEmpty (h !! "x-forwarded-for") with
        | Some v => Some (firstItem v)
        | None =>
            match nonEmpty (h !! "x-real-ip") with
            | Some v => Some (firstItem v)
            | None => None
            end
        end
    | None => None
    end in
  match fromHeaders with
  | Some r => r
  | None =>
      match nonEmpty (ip req) with
      | Some r => r
      | None =>
          match connection req with
          | Some c =>
              match nonEmpty (remoteAddress c) with
              | Some r => r
              | None => ""
              end
          | None => ""
          end
      end
  end.

(** [arr.sort(compare)] with the comparator [a - b] on numeric keys: the
    stable ascending arrangement. [key] stands for the three ways the source
    reads the number (the element, [a[k]], or a path of keys). *)
Variable A : Type.
Variable key : A -> Z.

Fixpoint insertSorted (x : A) (l : list A) : list A :=
  match l with
  | [] => [x]
  | y :: rest => if (key x <=? key y)%Z then x :: l else y :: insertSorted x rest
  end.

Definition sortAsc (arr : list A) : list A := fold_right insertSorted [] arr.

Definition sortDesc (arr : list A) : list A := rev (sortAsc arr).

End Misc.

End Utils.

Import Utils.

(** ** The wallet routes of [bitcore-node]

    [routes/api/wallet.ts]: the handlers that create and update a wallet. A
    handler is the tree of what it awaits from [ChainStateProvider] and of
    the reply it sends for each answer; the keep-alive timer of the update
    handler, which depends on the clock, is left out. *)

Module WalletRoutes.

(** [field && field.toString().length >= maxLength], as a condition. *)
Definition isTooLong (field : jsany) (maxLength : nat) : bool :=
  truthyA field
  && match toStringA field with
     | Some text => (maxLength <=? jsLength text)%nat
     | None => false
     end.

Inductive ReplyBody (Wallet : Type) : Type :=
  | Text (s : string)
  | Document (w : Wallet)
  | ErrorMessage (e : error)
  | Empty.
Arguments Text {Wallet} s.
Arguments Document {Wallet} w.
Arguments ErrorMessage {Wallet} e.
Arguments Empty {Wallet}.

Record Reply (Wallet : Type) : Type := mkReply {
  status : nat;
  body : ReplyBody Wallet
}.
Arguments mkReply {Wallet}.
Arguments status {Wallet}.
Arguments body {Wallet}.

(** The fields the create handler reads off [req.body]. *)
Record CreateBody : Type := mkCreateBody {
  name : jsany;
  pubKey : jsany;
  path : jsany;
  singleAddress : jsany
}.

Section Handlers.

(** A wallet document, and a line of the body of an update. *)
Variable Wallet : Type.
Variable Line : Type.

(** [line.address] *)
Variable lineAddress : Line -> jsany.

(** [Validation.validateAddress(chain, network, address)] *)
Variable validateAddress : string -> string -> jsany -> result bool.

(** [Auth.verifyRequestSignature({ message, pubKey, signature })], as the
    condition sees it. *)
Variable verifyRequestSignature : string -> jsany -> string -> result bool.

(** [JSON.stringify(req.body)] *)
Variable stringify : list Line -> string.

(** [config.services.socket.bwsKeys[0]] *)
Variable bwsKey : jsany.

Inductive Route : Type :=
  | Done (r : Reply Wallet)
  | GetWallet (chain network : string) (pubKey : jsany)
      (k : result (option Wallet) -> Route)
  | CreateWallet (chain network : string) (singleAddress name pubKey path : jsany)
      (k : result Wallet -> Route)
  | UpdateWallet (chain network : string) (wallet : Wallet) (addresses : list jsany)
      (reprocess : bool) (k : result unit -> Route).

(** [catch (err) { return res.status(500).send(err.message || err) }] *)
Definition failed (e : error) : Route := Done (mkReply 500 (ErrorMessage e)).

(** [router.post('/')] *)
Definition createWalletRoute (chain network : string) (b : CreateBody) : Route :=
  GetWallet chain network (pubKey b) (fun existingWallet =>
    match existingWallet with
    | Throw e => failed e
    | Ok (Some _) => Done (mkReply 200 (Text "Wallet already exists"))
    | Ok None =>
        if isTooLong (name b) 255 || isTooLong (pubKey b) 255
           || isTooLong (path b) 255 || isTooLong (singleAddress b) 255
        then Done (mkReply 413 (Text "String length exceeds limit"))
        else CreateWallet chain network (singleAddress b) (name b) (pubKey b) (path b)
               (fun result =>
                  match result with
                  | Ok w => Done (mkReply 200 (Document w))
                  | Throw e => failed e
                  end)
    end).

(** The loop over the addresses: [Ok false] is the reply 413, an exception
    of the validation goes to the [catch]. *)
Fixpoint allValid (chain network : string) (addresses : list jsany) : result bool :=
  match addresses with
  | [] => Ok true
  | address :: rest =>
      if isTooLong address 255 then Ok false
      else match validateAddress chain network address with
           | Throw e => Throw e
           | Ok false => Ok false
           | Ok true => allValid chain network rest
           end
  end.

Definition reprocessMessage (pubKey : string) (lines : list Line) : string :=
  String.concat "|" ["reprocess"; String.append "/addAddresses" pubKey; stringify lines].

(** [router.post('/:pubKey')], past the authentication middleware that sets
    [req.wallet]. *)
Definition updateWalletRoute (chain network pubKey : string) (wallet : Wallet)
           (lines : list Line) (xReprocess : option string) : Route :=
  let addressLines := List.filter (fun line => truthyA (lineAddress line)) lines in
  let addresses := List.map lineAddress addressLines in
  let update reprocess :=
    UpdateWallet chain network wallet addresses reprocess (fun answer =>
      match answer with
      | Ok _ => Done (mkReply 200 Empty)
      | Throw e => failed e
      end) in
  match allValid chain network addresses with
  | Throw e => failed e
  | Ok false => Done (mkReply 413 (Text "Invalid address"))
  | Ok true =>
      match nonEmpty xReprocess with
      | Some signature =>
          match verifyRequestSignature (reprocessMessage pubKey lines) bwsKey signature with
          | Throw e => failed e
          | Ok false => Done (mkReply 401 (Text "Authentication failed"))
          | Ok true => update true
          end
      | None => update false
      end
  end.

(** What a handler awaited, in order. *)
Inductive Event : Type :=
  | AwaitedGetWallet (chain network : string) (pubKey : jsany)
  | AwaitedCreateWallet (chain network : string) (singleAddress name pubKey path : jsany)
  | AwaitedUpdateWallet (chain network : string) (wallet : Wallet) (addresses : list jsany)
      (reprocess : bool).

(** A run of a handler: the provider's answers are any values. *)
Inductive Run : Route -> list Event -> Reply Wallet -> Prop :=
  | Run_Done r : Run (Done r) [] r
  | Run_GetWallet chain network pubKey k answer events r :
      Run (k answer) events r ->
      Run (GetWallet chain network pubKey k)
          (AwaitedGetWallet chain network pubKey :: events) r
  | Run_CreateWallet chain network singleAddress name pubKey path k answer events r :
      Run (k answer) events r ->
      Run (CreateWallet chain network singleAddress name pubKey path k)
          (AwaitedCreateWallet chain network singleAddress name pubKey path :: events) r
  | Run_UpdateWallet chain network wallet addresses reprocess k answer events r :
      Run (k answer) events r ->
      Run (UpdateWallet chain network wallet addresses reprocess k)
          (AwaitedUpdateWallet chain network wallet addresses reprocess :: events) r.

End Handlers.

End WalletRoutes.

(** ** Sample instances of the libraries

    Small stand-ins for the external libraries, on which the theorems below
    are run at concrete inputs. *)

Module Sample.

(** Text that is not a numeric literal converts to NaN, whose low eight
    bits are 0; the samples only pass such text. *)
Definition octetOfString (s : string) : byte := x00.

(** Accepts a buffer that opens with the DER SEQUENCE tag and is long
    enough to hold two integers; keeps what follows the two header octets. *)
Definition signatureImport (der : list byte) : result (list byte) :=
  match der with
  | x30 :: _ :: body =>
      if (6 <=? List.length body)%nat then Ok body
      else Throw (OtherError "Signature could not be parsed")
  | _ => Throw (OtherError "Signature could not be parsed")
  end.

Definition bytes_eqb (a b : list byte) : bool :=
  (List.length a =? List.length b)%nat
  && forallb (fun p => Byte.eqb (fst p) (snd p)) (combine a b).

(** Refuses a digest that is not 32 octets or a key that is not 33 or 65
    octets, as the binding does; accepts when the signature body repeats
    the digest. *)
Definition ecdsaVerify (sig msg32 pubkey : list byte) : result bool :=
  if negb (List.length msg32 =? 32)%nat
  then Throw (OtherError "Expected message to be an Uint8Array with length 32")
  else if negb ((List.length pubkey =? 33)%nat || (List.length pubkey =? 65)%nat)
  then Throw (OtherError "Expected public key to be an Uint8Array with length [33, 65]")
  else Ok (bytes_eqb sig msg32).

(** A codec with one identity kind: an address is a one-letter prefix
    followed by the hash. [btc] writes and reads the prefix 1; [bch] reads
    1 (legacy) and q and writes q, or 1 as legacy; [doge] uses D and [ltc]
    uses L. *)
Definition Address : Type := (Coin * AddressObject)%type.

Definition prefix (c : Coin) : ascii :=
  match c with
  | btc => "1"
  | bch => "q"
  | doge => "D"
  | ltc => "L"
  end%char.

Definition accepts (c : Coin) (p : ascii) : bool :=
  Ascii.eqb p (prefix c) || (match c with bch => Ascii.eqb p "1" | _ => false end).

Definition new_Address (c : Coin) (data : string) : result Address :=
  match data with
  | EmptyString => Throw IllegalArgumentError
  | String p h =>
      if accepts c p then Ok (c, mkAddressObject h "pubkeyhash" "livenet")
      else Throw (OtherError "Address has mismatched network type")
  end.

Definition Address_fromObject (c : Coin) (o : AddressObject) : result Address :=
  if String.eqb (type o) "pubkeyhash" && String.eqb (network o) "livenet"
  then Ok (c, o)
  else Throw TypeError.

Definition toObject (a : Address) : AddressObject := snd a.

Definition toString (a : Address) : string := String (prefix (fst a)) (hash (snd a)).

Definition toLegacyAddress (a : Address) : string := String "1" (hash (snd a)).

Definition NETWORK_ALIASES : gmap string (gmap string string) :=
  {[ "btc" := {[ "mainnet" := "livenet"; "testnet" := "testnet3" ]};
     "eth" := {[ "testnet" := "sepolia" ]} ]}.

Definition NETWORK_CHAINS : list string := ["btc"; "eth"].

(** [parseInt] on plain decimal text: the value of the leading digits, NaN
    ([None]) when there is none. Whitespace, signs and radix prefixes are
    left out of the sample. *)
Fixpoint leadingDigits (s : string) (acc : option N) : option N :=
  match s with
  | EmptyString => acc
  | String c rest =>
      if isDigit c
      then leadingDigits rest
             (Some (10 * match acc with Some n => n | None => 0 end + (N_of_ascii c - 48)))%N
      else acc
  end.

Definition parseInt (s : string) : option N := leadingDigits s None.

(** For the wallet routes: a line is its address text (empty for a line
    without address); addresses that open with 1 are valid; a signature is
    accepted when it repeats the message after "signed:". *)
Definition lineAddress (line : string) : jsany := AStr line.

Definition validateAddress (chain network : string) (address : jsany) : result bool :=
  match address with
  | AStr a => Ok (String.prefix "1" a)
  | _ => Ok false
  end.

Definition verifyRequestSignature (message : string) (pubKey : jsany) (signature : string)
  : result bool :=
  Ok (String.eqb signature (String.append "signed:" message)).

Definition stringify (lines : list string) : string := String.concat "," lines.

Definition bwsKey : jsany := AStr "02ab".

End Sample.

(** A second codec, with networks: an address is a one-letter prefix and
    the hash. On the main network the prefixes are those of [Sample]; every
    library writes the test networks with m, which btc, bch and ltc read as
    "testnet" and doge reads as "regtest". *)
Module SampleNet.

Definition Address : Type := (Coin * AddressObject)%type.

Definition reads (c : Coin) (p : ascii) : option string :=
  if Ascii.eqb p "m" then Some (match c with doge => "regtest" | _ => "testnet" end)
  else if Sample.accepts c p then Some "livenet"
  else None.

Definition writes (c : Coin) (network : string) (legacy : bool) : ascii :=
  if String.eqb network "livenet"
  then (if legacy then "1"%char else Sample.prefix c)
  else "m"%char.

Definition new_Address (c : Coin) (data : string) : result Address :=
  match data with
  | EmptyString => Throw IllegalArgumentError
  | String p h =>
      match reads c p with
      | Some network => Ok (c, mkAddressObject h "pubkeyhash" network)
      | None => Throw (OtherError "Address has mismatched network type")
      end
  end.

Definition Address_fromObject (c : Coin) (o : AddressObject) : result Address :=
  if String.eqb (type o) "pubkeyhash"
     && includes ["livenet"; "testnet"; "regtest"] (Some (network o))
  then Ok (c, o)
  else Throw TypeError.

Definition toObject (a : Address) : AddressObject := snd a.

Definition toString (a : Address) : string :=
  String (writes (fst a) (network (snd a)) false) (hash (snd a)).

Definition toLegacyAddress (a : Address) : string :=
  String (writes (fst a) (network (snd a)) true) (hash (snd a)).

End SampleNet.

(** * Properties *)

(** ** SHA-256 against the published vectors *)

Example sha256_abc :
  toHex (SHA256.sha256 (list_byte_of_string "abc"))
  = "ba7816bf8f01cfea414140de5dae2223b00361a396177a9cb410ff61f20015ad".
Proof. vm_compute. reflexivity. Qed.

Example sha256_empty :
  toHex (SHA256.sha256 [])
  = "e3b0c44298fc1c149afbf4c8996fb92427ae41e4649b934ca495991b7852b855".
Proof. vm_compute. reflexivity. Qed.

(** Two blocks: 56 octets do not leave room for the length in the first. *)
Example sha256_two_blocks :
  toHex (SHA256.sha256 (repeat "a"%byte 56))
  = "b35439a4ac6f0948b6d6f9e3c6af0f5f590ce20f1bde7090ef7970686ec6738a".
Proof. vm_compute. reflexivity. Qed.

Example sha256_constants :
  List.length SHA256.K = 64%nat
  /\ hd 0%Z SHA256.K = 0x428a2f98%Z
  /\ List.last SHA256.K 0%Z = 0xc67178f2%Z
  /\ SHA256.sa SHA256.H0 = 0x6a09e667%Z
  /\ SHA256.sh SHA256.H0 = 0x5be0cd19%Z.
Proof. repeat (split; [reflexivity|]). reflexivity. Qed.

Lemma sha256_length (msg : list byte) : List.length (SHA256.sha256 msg) = 32%nat.
Proof.
  unfold SHA256.sha256. rewrite List.length_map.
  unfold SHA256.digest_octets, SHA256.octets_of_word. reflexivity.
Qed.

Lemma sha256sha256_length (b : list byte) : List.length (sha256sha256 b) = 32%nat.
Proof. apply sha256_length. Qed.

Example sha256sha256_abc :
  toHex (sha256sha256 (list_byte_of_string "abc"))
  = "4f8b42c22dd3729b519ba6f68d2da7cc5b2d606d05daed5ad5128cc03e6c6358".
Proof. vm_compute. reflexivity. Qed.

(** ** Helpers of the model *)

Lemma readReverse_new (b : list byte) : readReverse (new_BufferReader b) = rev b.
Proof.
  unfold readReverse, new_BufferReader. simpl.
  now rewrite List.firstn_all.
Qed.

Lemma truthy_JStr (s : string) : truthy (JStr s) = true <-> s <> "".
Proof.
  simpl. destruct (String.eqb_spec s "") as [E|E]; simpl; split; intros H;
    try discriminate; try contradiction; auto.
Qed.

Lemma append_empty_r (x : string) : String.append x "" = x.
Proof.
  induction x as [|c x IH]; [reflexivity|].
  change (String c (String.append x "") = String c x). now rewrite IH.
Qed.

(** [join('')] is plain concatenation. *)
Lemma concat_no_separator (items : list string) :
  String.concat "" items = fold_right String.append "" items.
Proof.
  induction items as [|x [|y rest] IH].
  - reflexivity.
  - change (String.concat "" [x]) with x. simpl. now rewrite append_empty_r.
  - change (String.concat "" (x :: y :: rest))
      with (String.append x (String.append "" (String.concat "" (y :: rest)))).
    rewrite IH. reflexivity.
Qed.

Lemma checkArgument_truthy (v : jsval) : truthy v = true -> checkArgument v = Ok tt.
Proof. unfold checkArgument. now intros ->. Qed.

Lemma checkArgument_falsy (v : jsval) :
  truthy v = false -> checkArgument v = Throw IllegalArgumentError.
Proof. unfold checkArgument. now intros ->. Qed.

Section VerifierFacts.

Variable octetOfString : string -> byte.
Variable signatureImport : list byte -> result (list byte).
Variable ecdsaVerify : list byte -> list byte -> list byte -> result bool.

#[local] Abbreviation hashMessage := (hashMessage octetOfString).
#[local] Abbreviation verifyMessage := (verifyMessage octetOfString signatureImport ecdsaVerify).
#[local] Abbreviation _tryImportSignature := (_tryImportSignature octetOfString signatureImport).
#[local] Abbreviation _tryImportPublicKey := (_tryImportPublicKey octetOfString).
#[local] Abbreviation _tryVerifyMessage := (_tryVerifyMessage ecdsaVerify).
#[local] Abbreviation Buffer_from := (Buffer_from octetOfString).
#[local] Abbreviation verdict := (verdict octetOfString signatureImport ecdsaVerify).

(** A truthy value always converts to a buffer. *)
Lemma Buffer_from_truthy (v : jsval) :
  truthy v = true -> exists b, Buffer_from v = Ok b.
Proof. destruct v; simpl; intros H; try discriminate; eauto. Qed.

Lemma hashMessage_truthy (text : jsval) (noReverse : bool) (b : list byte) :
  truthy text = true ->
  Buffer_from text = Ok b ->
  hashMessage text noReverse
  = Ok (if noReverse then sha256sha256 b else rev (sha256sha256 b)).
Proof.
  intros Ht Hb. unfold Utils.hashMessage.
  rewrite (checkArgument_truthy _ Ht). unfold mbind, result_bind.
  rewrite Hb. destruct noReverse; simpl negb; cbv iota;
    [reflexivity | now rewrite readReverse_new].
Qed.

Lemma hashMessage_noReverse (text : jsval) (b : list byte) :
  truthy text = true ->
  Buffer_from text = Ok b ->
  hashMessage text true = Ok (sha256sha256 b).
Proof. intros Ht Hb. now rewrite (hashMessage_truthy text true b). Qed.

Lemma hashMessage_reverse (text : jsval) (b : list byte) :
  truthy text = true ->
  Buffer_from text = Ok b ->
  hashMessage text false = Ok (rev (sha256sha256 b)).
Proof. intros Ht Hb. now rewrite (hashMessage_truthy text false b). Qed.

Lemma hashMessage_falsy (text : jsval) (noReverse : bool) :
  truthy text = false -> hashMessage text noReverse = Throw IllegalArgumentError.
Proof.
  intros Ht. unfold Utils.hashMessage. now rewrite (checkArgument_falsy _ Ht).
Qed.

Lemma verifyMessage_nonEmpty (message signature publicKey : jsval) (b : list byte) :
  nonEmptyMessage message = true ->
  Buffer_from (flatten message) = Ok b ->
  verifyMessage message signature publicKey
  = Ok (verdict (sha256sha256 b) signature publicKey).
Proof.
  unfold nonEmptyMessage. intros [Hm Hf]%andb_prop Hb.
  unfold Utils.verifyMessage, Utils.verdict.
  rewrite (checkArgument_truthy _ Hm).
  assert (Hflat : (if Array_isArray message then flatten message else message)
                  = flatten message) by now destruct message.
  rewrite Hflat. unfold mbind at 1, result_bind at 1.
  rewrite (hashMessage_truthy _ true b Hf Hb). unfold mbind, result_bind.
  destruct (_tryImportSignature signature); [|reflexivity].
  now destruct (_tryImportPublicKey publicKey).
Qed.

Lemma verifyMessage_empty (message signature publicKey : jsval) :
  nonEmptyMessage message = false ->
  verifyMessage message signature publicKey = Throw IllegalArgumentError.
Proof.
  unfold nonEmptyMessage, Utils.verifyMessage. intros H.
  destruct (truthy message) eqn:Hm.
  - simpl in H. rewrite (checkArgument_truthy _ Hm).
    assert (Hflat : (if Array_isArray message then flatten message else message)
                    = flatten message) by now destruct message.
    rewrite Hflat. unfold mbind at 1, result_bind at 1.
    rewrite (hashMessage_falsy _ _ H). reflexivity.
  - now rewrite (checkArgument_falsy _ Hm).
Qed.

Lemma nonEmptyMessage_buffer (message : jsval) :
  nonEmptyMessage message = true -> exists b, Buffer_from (flatten message) = Ok b.
Proof.
  unfold nonEmptyMessage. intros [_ Hf]%andb_prop. now apply Buffer_from_truthy.
Qed.

(** When the two imports fail. *)
Lemma _tryImportPublicKey_None (publicKey : jsval) :
  _tryImportPublicKey publicKey = None <-> publicKey = JUndefined \/ publicKey = JNull.
Proof.
  destruct publicKey; simpl; split; intros H; try discriminate; auto;
    destruct H; discriminate.
Qed.

Lemma _tryImportSignature_hex (s : string) :
  _tryImportSignature (JStr s)
  = match signatureImport (hexDecode s) with Ok sig => Some sig | Throw _ => None end.
Proof. reflexivity. Qed.

(** C7. For every non-empty input text, the digest [hashMessage] returns by
    default (byte reversal enabled, [noReverse] false) is the exact
    byte-order reversal of the 32-byte digest it returns with reversal
    disabled ([noReverse] true) on the same text. *)
Theorem hashMessage_default_is_reversed (text : string) :
  text <> "" ->
  exists d : list byte,
    hashMessage (JStr text) true = Ok d
    /\ List.length d = 32%nat
    /\ hashMessage (JStr text) false = Ok (rev d).
Proof.
  intros Hne. apply truthy_JStr in Hne.
  exists (sha256sha256 (list_byte_of_string text)). split; [|split].
  - now apply hashMessage_noReverse.
  - apply sha256sha256_length.
  - now apply hashMessage_reverse.
Qed.

(** C10. [hashMessage] and [verifyMessage] reject a falsy message (the
    empty string, [null], [undefined]): both throw the precondition error of
    [$.checkArgument] instead of returning a digest or [false]. *)
Theorem falsy_message_rejected (message : jsval) :
  truthy message = false ->
  (forall noReverse, hashMessage message noReverse = Throw IllegalArgumentError)
  /\ (forall signature publicKey,
        verifyMessage message signature publicKey = Throw IllegalArgumentError).
Proof.
  intros Hf. split.
  - intros noReverse. now apply hashMessage_falsy.
  - intros signature publicKey. apply verifyMessage_empty.
    unfold nonEmptyMessage. now rewrite Hf.
Qed.

(** [verifyMessage] returns exactly on the messages it can hash. *)
Lemma verifyMessage_returns (message signature publicKey : jsval) :
  returns (verifyMessage message signature publicKey) = nonEmptyMessage message.
Proof.
  destruct (nonEmptyMessage message) eqn:H.
  - destruct (nonEmptyMessage_buffer _ H) as [b Hb].
    now rewrite (verifyMessage_nonEmpty _ _ _ b H Hb).
  - now rewrite (verifyMessage_empty _ _ _ H).
Qed.

(** C1, amended. For every message that is truthy and not flattened to the
    empty string, and for every signature and public-key input,
    [verifyMessage] returns a boolean and does not throw; when the import of
    the signature fails (the hex decoding or [signatureImport] throws) or
    the import of the public key fails, it returns [false]. *)
Theorem verifyMessage_total_on_nonempty (message signature publicKey : jsval) :
  nonEmptyMessage message = true ->
  (exists b : bool, verifyMessage message signature publicKey = Ok b)
  /\ (_tryImportSignature signature = None ->
      verifyMessage message signature publicKey = Ok false)
  /\ (_tryImportPublicKey publicKey = None ->
      verifyMessage message signature publicKey = Ok false).
Proof.
  intros H. destruct (nonEmptyMessage_buffer _ H) as [b Hb].
  rewrite (verifyMessage_nonEmpty _ _ _ b H Hb). unfold Utils.verdict.
  split; [eauto | split]; intros ->; [reflexivity|].
  now destruct (_tryImportSignature signature).
Qed.

(** A signature string with no leading hex pair decodes to the empty
    buffer; when [signatureImport] refuses that, the answer is [false]. *)
Lemma verifyMessage_not_hex (message publicKey : jsval) (e : error) :
  nonEmptyMessage message = true ->
  signatureImport [] = Throw e ->
  verifyMessage message (JStr "not-hex!!") publicKey = Ok false.
Proof.
  intros H Himp. destruct (nonEmptyMessage_buffer _ H) as [b Hb].
  rewrite (verifyMessage_nonEmpty _ _ _ b H Hb). unfold Utils.verdict.
  rewrite _tryImportSignature_hex. change (hexDecode "not-hex!!") with (@nil byte).
  now rewrite Himp.
Qed.

(** C2. For every message it accepts, [verifyMessage] verifies the signature
    against the non-reversed double SHA-256 of the flattened message's
    bytes: what it returns is the answer of [ecdsaVerify] on the imported
    signature, that digest (the one [hashMessage] returns with reversal
    disabled) and the imported key, while [hashMessage] by default returns
    the reversal of that digest. *)
Theorem verifyMessage_hashes_without_reversal (message signature publicKey : jsval) :
  nonEmptyMessage message = true ->
  exists b : list byte,
    Buffer_from (flatten message) = Ok b
    /\ hashMessage (flatten message) true = Ok (sha256sha256 b)
    /\ hashMessage (flatten message) false = Ok (rev (sha256sha256 b))
    /\ verifyMessage message signature publicKey
       = Ok (match _tryImportSignature signature, _tryImportPublicKey publicKey with
             | Some sig, Some key =>
                 match ecdsaVerify sig (sha256sha256 b) key with
                 | Ok answer => answer
                 | Throw _ => false
                 end
             | _, _ => false
             end).
Proof.
  intros H. destruct (nonEmptyMessage_buffer _ H) as [b Hb]. exists b.
  pose proof H as [_ Hf]%andb_prop.
  split; [assumption | split; [|split]].
  - now apply hashMessage_noReverse.
  - now apply hashMessage_reverse.
  - rewrite (verifyMessage_nonEmpty _ _ _ b H Hb).
    unfold Utils.verdict, Utils._tryVerifyMessage, try_catch. reflexivity.
Qed.

(** [Buffer.from] on an array makes one octet per element, whatever the
    elements' lengths. *)
Lemma Buffer_from_array_length (items : list string) :
  exists b, Buffer_from (JArr items) = Ok b /\ List.length b = List.length items.
Proof. eexists. split; [reflexivity | apply List.length_map]. Qed.

(** C9, amended. It is [verifyMessage], not [hashMessage], that
    concatenates an ordered sequence of strings with no separator before
    hashing: on every sequence it behaves as on the single string formed by
    the concatenation of the elements. *)
Theorem verifyMessage_flattens_sequence (items : list string) (signature publicKey : jsval) :
  verifyMessage (JArr items) signature publicKey
  = verifyMessage (JStr (fold_right String.append "" items)) signature publicKey.
Proof.
  rewrite <- concat_no_separator.
  destruct (truthy (JStr (String.concat "" items))) eqn:Ht.
  - rewrite (verifyMessage_nonEmpty (JArr items) _ _
               (list_byte_of_string (String.concat "" items))),
            (verifyMessage_nonEmpty (JStr (String.concat "" items)) _ _
               (list_byte_of_string (String.concat "" items)));
      try reflexivity; unfold nonEmptyMessage; simpl flatten; now rewrite ?Ht.
  - rewrite !verifyMessage_empty; try reflexivity;
      unfold nonEmptyMessage; simpl flatten; rewrite ?Ht; reflexivity.
Qed.

End VerifierFacts.

(** ** The verifier at concrete inputs *)

#[local] Abbreviation sample_hashMessage := (hashMessage Sample.octetOfString).
#[local] Abbreviation sample_verifyMessage :=
  (verifyMessage Sample.octetOfString Sample.signatureImport Sample.ecdsaVerify).

Lemma hashMessage_default_is_reversed_witness :
  "abc" <> ""
  /\ exists d : list byte,
       sample_hashMessage (JStr "abc") true = Ok d
       /\ List.length d = 32%nat
       /\ sample_hashMessage (JStr "abc") false = Ok (rev d).
Proof.
  split; [discriminate|].
  apply (hashMessage_default_is_reversed Sample.octetOfString "abc"). discriminate.
Defined.

Example hashMessage_abc :
  option_map toHex (match sample_hashMessage (JStr "abc") true with Ok d => Some d | _ => None end)
  = Some "4f8b42c22dd3729b519ba6f68d2da7cc5b2d606d05daed5ad5128cc03e6c6358"
  /\ option_map toHex (match sample_hashMessage (JStr "abc") false with Ok d => Some d | _ => None end)
    = Some "58636c3ec08c12d55aedda056d602d5bcca72d8df6a69b519b72d32dc2428b4f".
Proof. split; vm_compute; reflexivity. Qed.

Lemma falsy_message_rejected_witness :
  truthy (JStr "") = false
  /\ (forall noReverse, sample_hashMessage (JStr "") noReverse = Throw IllegalArgumentError)
  /\ (forall signature publicKey,
        sample_verifyMessage (JStr "") signature publicKey = Throw IllegalArgumentError).
Proof.
  split; [reflexivity|].
  apply (falsy_message_rejected Sample.octetOfString Sample.signatureImport Sample.ecdsaVerify
           (JStr "")).
  reflexivity.
Defined.

(** C1 as stated fails on the empty message: the call throws although the
    signature and the key are the malformed inputs the claim speaks of. *)
Lemma verifyMessage_throws_on_empty_message :
  sample_verifyMessage (JStr "") (JStr "not-hex!!") (JStr "02")
  = Throw IllegalArgumentError.
Proof. reflexivity. Qed.

(** The same for a sequence that flattens to the empty string. *)
Example verifyMessage_throws_on_empty_sequence :
  sample_verifyMessage (JArr []) (JStr "not-hex!!") (JStr "02")
  = Throw IllegalArgumentError.
Proof. reflexivity. Qed.

Lemma verifyMessage_total_on_nonempty_witness :
  nonEmptyMessage (JStr "abc") = true
  /\ (exists b : bool, sample_verifyMessage (JStr "abc") (JStr "not-hex!!") JUndefined = Ok b)
  /\ (_tryImportSignature Sample.octetOfString Sample.signatureImport (JStr "not-hex!!") = None ->
      sample_verifyMessage (JStr "abc") (JStr "not-hex!!") JUndefined = Ok false)
  /\ (_tryImportPublicKey Sample.octetOfString JUndefined = None ->
      sample_verifyMessage (JStr "abc") (JStr "not-hex!!") JUndefined = Ok false).
Proof.
  split; [reflexivity|].
  apply (verifyMessage_total_on_nonempty Sample.octetOfString Sample.signatureImport
           Sample.ecdsaVerify (JStr "abc") (JStr "not-hex!!") JUndefined).
  reflexivity.
Defined.

Example verifyMessage_malformed_signature :
  sample_verifyMessage (JStr "abc") (JStr "not-hex!!")
    (JStr "02aaaaaaaaaaaaaaaaaaaaaaaaaaaaaaaaaaaaaaaaaaaaaaaaaaaaaaaaaaaaaaaa")
  = Ok false.
Proof. vm_compute. reflexivity. Qed.

Lemma verifyMessage_hashes_without_reversal_witness :
  nonEmptyMessage (JArr ["ab"; "c"]) = true
  /\ sample_verifyMessage (JArr ["ab"; "c"])
       (JStr "30204f8b42c22dd3729b519ba6f68d2da7cc5b2d606d05daed5ad5128cc03e6c6358")
       (JStr "02aaaaaaaaaaaaaaaaaaaaaaaaaaaaaaaaaaaaaaaaaaaaaaaaaaaaaaaaaaaaaaaa")
     = Ok true
  /\ exists b : list byte,
       Buffer_from Sample.octetOfString (flatten (JArr ["ab"; "c"])) = Ok b
       /\ sample_hashMessage (flatten (JArr ["ab"; "c"])) true = Ok (sha256sha256 b)
       /\ sample_hashMessage (flatten (JArr ["ab"; "c"])) false = Ok (rev (sha256sha256 b))
       /\ sample_verifyMessage (JArr ["ab"; "c"])
            (JStr "30204f8b42c22dd3729b519ba6f68d2da7cc5b2d606d05daed5ad5128cc03e6c6358")
            (JStr "02aaaaaaaaaaaaaaaaaaaaaaaaaaaaaaaaaaaaaaaaaaaaaaaaaaaaaaaaaaaaaaaa")
          = Ok (match Utils._tryImportSignature Sample.octetOfString Sample.signatureImport
                        (JStr "30204f8b42c22dd3729b519ba6f68d2da7cc5b2d606d05daed5ad5128cc03e6c6358"),
                      Utils._tryImportPublicKey Sample.octetOfString (JStr "02aaaaaaaaaaaaaaaaaaaaaaaaaaaaaaaaaaaaaaaaaaaaaaaaaaaaaaaaaaaaaaaa")
                with
                | Some sig, Some key =>
                    match Sample.ecdsaVerify sig (sha256sha256 b) key with
                    | Ok answer => answer
                    | Throw _ => false
                    end
                | _, _ => false
                end).
Proof.
  split; [reflexivity | split; [vm_compute; reflexivity|]].
  apply (verifyMessage_hashes_without_reversal Sample.octetOfString Sample.signatureImport
           Sample.ecdsaVerify (JArr ["ab"; "c"])).
  reflexivity.
Defined.

(** With the sample verifier, which accepts a signature whose body repeats
    the digest it is given: the digest that verifies is the non-reversed one. *)
Example verifyMessage_accepts_unreversed_digest :
  sample_verifyMessage (JStr "abc")
    (JStr "30204f8b42c22dd3729b519ba6f68d2da7cc5b2d606d05daed5ad5128cc03e6c6358")
    (JStr "02aaaaaaaaaaaaaaaaaaaaaaaaaaaaaaaaaaaaaaaaaaaaaaaaaaaaaaaaaaaaaaaa")
  = Ok true.
Proof. vm_compute. reflexivity. Qed.

Example verifyMessage_refuses_reversed_digest :
  sample_verifyMessage (JStr "abc")
    (JStr "302058636c3ec08c12d55aedda056d602d5bcca72d8df6a69b519b72d32dc2428b4f")
    (JStr "02aaaaaaaaaaaaaaaaaaaaaaaaaaaaaaaaaaaaaaaaaaaaaaaaaaaaaaaaaaaaaaaa")
  = Ok false.
Proof. vm_compute. reflexivity. Qed.

(** C9 as stated fails on its own example: [hashMessage] hands the sequence
    to [Buffer.from], which makes the two octets 0, 0 of the elements "ab"
    and "c" (neither is a numeric literal), not the three octets of "abc". *)
Lemma hashMessage_does_not_concatenate :
  sample_hashMessage (JArr ["ab"; "c"]) true <> sample_hashMessage (JStr "abc") true.
Proof. vm_compute. discriminate. Qed.

Example hashMessage_sequence_digest :
  option_map toHex
    (match sample_hashMessage (JArr ["ab"; "c"]) true with Ok d => Some d | _ => None end)
  = Some "407feb4a4b8303baf4f84e29a209e0dcfd62e81f88c8edb7675c5a95d90e5c90".
Proof. vm_compute. reflexivity. Qed.

(** On the empty sequence [hashMessage] returns a digest, where on the
    concatenation, the empty string, it throws; this holds for every
    coercion of the elements. *)
Example hashMessage_empty_sequence (octetOfString : string -> byte) :
  hashMessage octetOfString (JArr []) true = Ok (sha256sha256 [])
  /\ hashMessage octetOfString (JStr "") true = Throw IllegalArgumentError.
Proof. split; reflexivity. Qed.

Example verifyMessage_sequence_as_text :
  sample_verifyMessage (JArr ["ab"; "c"])
    (JStr "30204f8b42c22dd3729b519ba6f68d2da7cc5b2d606d05daed5ad5128cc03e6c6358")
    (JStr "02aaaaaaaaaaaaaaaaaaaaaaaaaaaaaaaaaaaaaaaaaaaaaaaaaaaaaaaaaaaaaaaa")
  = Ok true.
Proof. vm_compute. reflexivity. Qed.

(** ** Address identity resolver *)

Lemma Bitcore_coinName (lib : Coin) : Bitcore_ (Some (coinName lib)) = Some lib.
Proof. now destruct lib. Qed.

Lemma Bitcore_Some (key : string) (lib : Coin) :
  Bitcore_ (Some key) = Some lib -> key = coinName lib.
Proof.
  unfold Bitcore_.
  destruct (String.eqb_spec key "btc") as [->|_]; [now intros [= <-]|].
  destruct (String.eqb_spec key "bch") as [->|_]; [now intros [= <-]|].
  destruct (String.eqb_spec key "doge") as [->|_]; [now intros [= <-]|].
  destruct (String.eqb_spec key "ltc") as [->|_]; [now intros [= <-]|].
  discriminate.
Qed.

Section ResolverFacts.

Variable Address : Type.
Variable new_Address : Coin -> string -> result Address.
Variable Address_fromObject : Coin -> AddressObject -> result Address.
Variable toObject : Address -> AddressObject.
Variable toString : Address -> string.
Variable toLegacyAddress : Address -> string.

#[local] Abbreviation getAddressCoin := (getAddressCoin Address new_Address).
#[local] Abbreviation accepted := (accepted Address new_Address).
#[local] Abbreviation render := (render Address toString toLegacyAddress).
#[local] Abbreviation translateAddress :=
  (translateAddress Address new_Address Address_fromObject toObject toString toLegacyAddress).
#[local] Abbreviation ReadsBackHash :=
  (ReadsBackHash Address new_Address Address_fromObject toObject toString toLegacyAddress).
#[local] Abbreviation AgreeOnHash := (AgreeOnHash Address new_Address toObject).

Lemma accepted_true (address : string) (lib : Coin) :
  accepted address lib = true <-> exists a, new_Address lib address = Ok a.
Proof.
  unfold Utils.accepted, returns.
  destruct (new_Address lib address); split; intros H; eauto; try discriminate.
  destruct H; discriminate.
Qed.

Lemma getAddressCoin_find (address : string) :
  getAddressCoin address = option_map coinName (List.find (accepted address) priority).
Proof.
  unfold Utils.getAddressCoin, priority, Utils.accepted, returns. simpl.
  destruct (new_Address btc address); [reflexivity|].
  destruct (new_Address bch address); [reflexivity|].
  destruct (new_Address doge address); [reflexivity|].
  destruct (new_Address ltc address); reflexivity.
Qed.

Lemma priority_complete (lib : Coin) : In lib priority.
Proof. destruct lib; simpl; auto. Qed.

Lemma getAddressCoin_None (address : string) :
  getAddressCoin address = None <-> forall lib, accepted address lib = false.
Proof.
  rewrite getAddressCoin_find. split.
  - intros H lib. destruct (List.find (accepted address) priority) eqn:Hf; [discriminate|].
    apply (List.find_none _ _ Hf), priority_complete.
  - intros H. unfold priority. simpl. now rewrite !H.
Qed.

(** An address some library takes is classified, under a library that
    takes it. *)
Lemma getAddressCoin_classifies (address : string) (lib : Coin) (a : Address) :
  new_Address lib address = Ok a ->
  exists lib0 a0,
    getAddressCoin address = Some (coinName lib0) /\ new_Address lib0 address = Ok a0.
Proof.
  intros Ha. rewrite getAddressCoin_find.
  destruct (List.find (accepted address) priority) as [lib0|] eqn:Hf.
  - apply List.find_some in Hf as [_ Hacc]. apply accepted_true in Hacc as [a0 Ha0].
    exists lib0, a0. split; [reflexivity | assumption].
  - pose proof (List.find_none _ _ Hf lib (priority_complete lib)) as Hn.
    unfold Utils.accepted in Hn. rewrite Ha in Hn. discriminate.
Qed.

Lemma translateAddress_unclassified (address coin : string) :
  getAddressCoin address = None -> translateAddress address coin = Throw TypeError.
Proof. unfold Utils.translateAddress. now intros ->. Qed.

Lemma translateAddress_classified (address coin : string) (lib target : Coin)
      (a r : Address) :
  getAddressCoin address = Some (coinName lib) ->
  new_Address lib address = Ok a ->
  Bitcore_ (Some coin) = Some target ->
  Address_fromObject target (toObject a) = Ok r ->
  translateAddress address coin = Ok (render coin r).
Proof.
  intros Hc Ha Ht Hr. unfold Utils.translateAddress, Bitcore_Address.
  rewrite Hc, Bitcore_coinName. unfold mbind at 1, result_bind at 1.
  rewrite Ha. unfold mbind at 1, result_bind at 1.
  rewrite Ht. unfold mbind at 1, result_bind at 1.
  rewrite Hr. reflexivity.
Qed.

(** C3. For every address string, [getAddressCoin] tries the libraries in
    the order btc, bch, doge, ltc and returns the first whose grammar
    accepts the string; when none accepts it (whatever the string, the
    empty one included) it returns [undefined]. It has no throwing path. *)
Theorem getAddressCoin_first_match (address : string) :
  priority = [btc; bch; doge; ltc]
  /\ getAddressCoin address = option_map coinName (List.find (accepted address) priority)
  /\ (getAddressCoin address = None <-> forall lib, accepted address lib = false).
Proof.
  split; [reflexivity | split].
  - apply getAddressCoin_find.
  - apply getAddressCoin_None.
Qed.

(** C4, amended. For every address on which [getAddressCoin] returns
    [undefined], [translateAddress] throws the runtime's [TypeError] (the
    source has no typed InvalidSourceAddress error); for every address that
    is classified, and every target coin among the four whose [fromObject]
    takes the decoded object, [translateAddress] returns the re-encoded
    address. *)
Theorem translateAddress_outcomes (address coin : string) :
  (getAddressCoin address = None -> translateAddress address coin = Throw TypeError)
  /\ (forall lib target a r,
        getAddressCoin address = Some (coinName lib) ->
        new_Address lib address = Ok a ->
        Bitcore_ (Some coin) = Some target ->
        Address_fromObject target (toObject a) = Ok r ->
        translateAddress address coin = Ok (render coin r)).
Proof.
  split.
  - apply translateAddress_unclassified.
  - intros lib target a r. apply translateAddress_classified.
Qed.

(** What a successful translation has gone through. *)
Lemma translateAddress_Ok_inv (address coin s : string) :
  translateAddress address coin = Ok s ->
  exists lib a target r,
    new_Address lib address = Ok a
    /\ Bitcore_ (Some coin) = Some target
    /\ Address_fromObject target (toObject a) = Ok r
    /\ s = render coin r.
Proof.
  unfold Utils.translateAddress, Bitcore_Address. rewrite getAddressCoin_find.
  destruct (List.find (accepted address) priority) as [lib|];
    cbn [option_map]; [|discriminate].
  rewrite Bitcore_coinName. unfold mbind, result_bind.
  destruct (new_Address lib address) as [a|] eqn:Ha; [|discriminate].
  destruct (Bitcore_ (Some coin)) as [target|] eqn:Ht; [|discriminate].
  destruct (Address_fromObject target (toObject a)) as [r|] eqn:Hr; [|discriminate].
  intros H. exists lib, a, target, r. repeat split; trivial.
  unfold Utils.render. congruence.
Qed.

(** C5. Round trip. Asked of the libraries, about the hash alone: a library
    that takes the object read from an address reads back what it writes,
    with the hash of that object, and two libraries that read one string
    read one hash (on the network they need not agree).
    Then, for every address [a] that library [F] reads and every target [T]:
    - whenever translating [a] to [T] and the result back to [F] both
      succeed, the address obtained decodes to the same hash as [a]: [F]
      reads it with that hash, and so does every library that reads it (it
      is the default rendering, not necessarily the string [a]);
    - both translations do succeed when [T] can hold the identity, that is,
      [fromObject] of [T] takes the object whichever library reads from [a],
      and [fromObject] of [F] takes the object whichever library reads from
      the intermediate address. *)
Theorem translateAddress_round_trip (F T : Coin) (a : string) (aF : Address) :
  ReadsBackHash ->
  AgreeOnHash ->
  new_Address F a = Ok aF ->
  (forall s a' : string,
      translateAddress a (coinName T) = Ok s ->
      translateAddress s (coinName F) = Ok a' ->
      (exists aF', new_Address F a' = Ok aF'
                   /\ hash (toObject aF') = hash (toObject aF))
      /\ (forall G aG, new_Address G a' = Ok aG ->
            hash (toObject aG) = hash (toObject aF)))
  /\ ((forall C aC, new_Address C a = Ok aC ->
         exists rT, Address_fromObject T (toObject aC) = Ok rT) ->
      (forall s G aG, translateAddress a (coinName T) = Ok s ->
         new_Address G s = Ok aG ->
         exists rF, Address_fromObject F (toObject aG) = Ok rF) ->
      exists s a' : string,
        translateAddress a (coinName T) = Ok s
        /\ translateAddress s (coinName F) = Ok a').
Proof.
  intros Hback Hagree HaF. split.
  - intros s a' Hthere Hreturn.
    destruct (translateAddress_Ok_inv _ _ _ Hthere)
      as (C & aC & T' & rT & HaC & HT' & HrT & ->).
    rewrite Bitcore_coinName in HT'. assert (T' = T) as -> by congruence.
    destruct (translateAddress_Ok_inv _ _ _ Hreturn)
      as (G0 & aG0 & F' & rF & HaG0 & HF' & HrF & ->).
    rewrite Bitcore_coinName in HF'. assert (F' = F) as -> by congruence.
    destruct (Hback _ _ _ _ _ HaC HrT) as (aT & HaT & HhT).
    destruct (Hback _ _ _ _ _ HaG0 HrF) as (aF' & HaF' & HhF').
    assert (Hh : hash (toObject aF') = hash (toObject aF)).
    { rewrite HhF', (Hagree _ _ _ _ _ HaG0 HaT), HhT. exact (Hagree _ _ _ _ _ HaC HaF). }
    split.
    + now exists aF'.
    + intros G aG HaG. now rewrite (Hagree _ _ _ _ _ HaG HaF').
  - intros HholdT HholdF.
    destruct (getAddressCoin_classifies a F aF HaF) as (C & aC & HC & HaC).
    destruct (HholdT _ _ HaC) as (rT & HrT).
    assert (Hthere : translateAddress a (coinName T) = Ok (render (coinName T) rT)).
    { apply (translateAddress_classified a (coinName T) C T aC rT); trivial.
      apply Bitcore_coinName. }
    destruct (Hback _ _ _ _ _ HaC HrT) as (aT & HaT & _).
    destruct (getAddressCoin_classifies _ T aT HaT) as (G0 & aG0 & HG0 & HaG0).
    destruct (HholdF _ _ _ Hthere HaG0) as (rF & HrF).
    exists (render (coinName T) rT), (render (coinName F) rF).
    split; [exact Hthere|].
    apply (translateAddress_classified _ (coinName F) G0 F aG0 rF); trivial.
    apply Bitcore_coinName.
Qed.

End ResolverFacts.

(** ** The resolver at concrete inputs *)

#[local] Abbreviation sample_getAddressCoin :=
  (getAddressCoin Sample.Address Sample.new_Address).
#[local] Abbreviation sample_translateAddress :=
  (translateAddress Sample.Address Sample.new_Address Sample.Address_fromObject
     Sample.toObject Sample.toString Sample.toLegacyAddress).

#[local] Abbreviation net_translateAddress :=
  (translateAddress SampleNet.Address SampleNet.new_Address SampleNet.Address_fromObject
     SampleNet.toObject SampleNet.toString SampleNet.toLegacyAddress).

Lemma SampleNet_new_Address_Ok (lib : Coin) (s : string) (a : SampleNet.Address) :
  SampleNet.new_Address lib s = Ok a ->
  exists p h n,
    s = String p h /\ SampleNet.reads lib p = Some n
    /\ a = (lib, mkAddressObject h "pubkeyhash" n).
Proof.
  destruct s as [|p h]; simpl; [discriminate|].
  destruct (SampleNet.reads lib p) as [n|] eqn:Hn; [|discriminate].
  intros [= <-]. now exists p, h, n.
Qed.

Lemma SampleNet_reads_network (lib : Coin) (p : ascii) (n : string) :
  SampleNet.reads lib p = Some n ->
  includes ["livenet"; "testnet"; "regtest"] (Some n) = true.
Proof.
  unfold SampleNet.reads.
  destruct (Ascii.eqb p "m"); [destruct lib; now intros [= <-]|].
  destruct (Sample.accepts lib p); [now intros [= <-] | discriminate].
Qed.

Lemma SampleNet_fromObject_Ok (lib : Coin) (o : AddressObject) (r : SampleNet.Address) :
  SampleNet.Address_fromObject lib o = Ok r ->
  r = (lib, o)
  /\ includes ["livenet"; "testnet"; "regtest"] (Some (network o)) = true.
Proof.
  unfold SampleNet.Address_fromObject.
  destruct (String.eqb (type o) "pubkeyhash"); simpl; [|discriminate].
  destruct (String.eqb (network o) "livenet" || _) eqn:Hn; [|discriminate].
  intros [= <-]. now split.
Qed.

(** Every library of the second codec takes the object another has read. *)
Lemma SampleNet_fromObject_new_Address (lib lib' : Coin) (s : string)
      (a : SampleNet.Address) :
  SampleNet.new_Address lib s = Ok a ->
  SampleNet.Address_fromObject lib' (SampleNet.toObject a)
  = Ok (lib', SampleNet.toObject a).
Proof.
  intros (p & h & n & -> & Hn & ->)%SampleNet_new_Address_Ok.
  apply SampleNet_reads_network in Hn.
  unfold SampleNet.Address_fromObject, SampleNet.toObject. simpl snd.
  cbn [type network]. now rewrite Hn.
Qed.

Lemma SampleNet_reads_back :
  ReadsBackHash SampleNet.Address SampleNet.new_Address SampleNet.Address_fromObject
    SampleNet.toObject SampleNet.toString SampleNet.toLegacyAddress.
Proof.
  intros lib0 s0 a0 lib r _. generalize (SampleNet.toObject a0). clear lib0 s0 a0.
  intros [h t n] [-> Hn]%SampleNet_fromObject_Ok.
  cbn [network includes existsb] in Hn.
  assert (Hcases : n = "livenet" \/ n = "testnet" \/ n = "regtest").
  { destruct (String.eqb_spec n "livenet"); [now left|].
    destruct (String.eqb_spec n "testnet"); [now right; left|].
    destruct (String.eqb_spec n "regtest"); [now right; right | discriminate]. }
  clear Hn.
  destruct Hcases as [-> | [-> | ->]]; destruct lib; eexists; split; reflexivity.
Qed.

Lemma SampleNet_agree_on_hash :
  AgreeOnHash SampleNet.Address SampleNet.new_Address SampleNet.toObject.
Proof.
  intros lib lib' s a a' (p & h & n & -> & _ & ->)%SampleNet_new_Address_Ok
                         (p' & h' & n' & [= <- <-] & _ & ->)%SampleNet_new_Address_Ok.
  reflexivity.
Qed.

Lemma getAddressCoin_first_match_witness :
  priority = [btc; bch; doge; ltc]
  /\ sample_getAddressCoin "1c0ffee"
     = option_map coinName
         (List.find (accepted Sample.Address Sample.new_Address "1c0ffee") priority)
  /\ (sample_getAddressCoin "1c0ffee" = None
      <-> forall lib, accepted Sample.Address Sample.new_Address "1c0ffee" lib = false).
Proof.
  exact (getAddressCoin_first_match Sample.Address Sample.new_Address "1c0ffee").
Defined.

(** The sample grammars of btc and bch both take a string that opens with 1:
    it is classified btc, the earlier of the two. *)
Example getAddressCoin_samples :
  List.map sample_getAddressCoin ["1c0ffee"; "qc0ffee"; "Dc0ffee"; "Lc0ffee"; ""; "not-an-address"]
  = [Some "btc"; Some "bch"; Some "doge"; Some "ltc"; None; None].
Proof. reflexivity. Qed.

(** C4 as stated fails on an address no library takes: what escapes is the
    [TypeError] of reading [Address] off [Bitcore_[undefined]], not a typed
    InvalidSourceAddress. *)
Lemma translateAddress_unclassified_TypeError :
  sample_getAddressCoin "not-an-address" = None
  /\ sample_translateAddress "not-an-address" "doge" = Throw TypeError
  /\ sample_translateAddress "not-an-address" "doge" <> Throw InvalidSourceAddress.
Proof. split; [reflexivity | split; [reflexivity | discriminate]]. Qed.

Lemma translateAddress_outcomes_witness :
  (sample_getAddressCoin "1c0ffee" = None ->
   sample_translateAddress "1c0ffee" "doge" = Throw TypeError)
  /\ (forall lib target a r,
        sample_getAddressCoin "1c0ffee" = Some (coinName lib) ->
        Sample.new_Address lib "1c0ffee" = Ok a ->
        Bitcore_ (Some "doge") = Some target ->
        Sample.Address_fromObject target (Sample.toObject a) = Ok r ->
        sample_translateAddress "1c0ffee" "doge"
        = Ok (render Sample.Address Sample.toString Sample.toLegacyAddress "doge" r)).
Proof.
  exact (translateAddress_outcomes Sample.Address Sample.new_Address
           Sample.Address_fromObject Sample.toObject Sample.toString
           Sample.toLegacyAddress "1c0ffee" "doge").
Defined.

Example translateAddress_samples :
  sample_translateAddress "1c0ffee" "doge" = Ok "Dc0ffee"
  /\ sample_translateAddress "Dc0ffee" "bch" = Ok "1c0ffee"
  /\ sample_translateAddress "qc0ffee" "ltc" = Ok "Lc0ffee"
  /\ sample_translateAddress "" "btc" = Throw TypeError
  /\ sample_translateAddress "1c0ffee" "eth" = Throw TypeError.
Proof. repeat (split; [reflexivity|]). reflexivity. Qed.

(** The second codec at an address of a test network, which doge reads as
    "regtest" and the classifying library, btc, as "testnet": the round trip
    through ltc succeeds and keeps the hash. *)
Lemma translateAddress_round_trip_witness :
  SampleNet.new_Address doge "mc0ffee"
  = Ok (doge, mkAddressObject "c0ffee" "pubkeyhash" "regtest")
  /\ SampleNet.new_Address btc "mc0ffee"
     = Ok (btc, mkAddressObject "c0ffee" "pubkeyhash" "testnet")
  /\ (forall s a' : string,
        net_translateAddress "mc0ffee" (coinName ltc) = Ok s ->
        net_translateAddress s (coinName doge) = Ok a' ->
        (exists aF', SampleNet.new_Address doge a' = Ok aF'
                     /\ hash (SampleNet.toObject aF') = "c0ffee")
        /\ (forall G aG, SampleNet.new_Address G a' = Ok aG ->
              hash (SampleNet.toObject aG) = "c0ffee"))
  /\ exists s a' : string,
       net_translateAddress "mc0ffee" (coinName ltc) = Ok s
       /\ net_translateAddress s (coinName doge) = Ok a'.
Proof.
  split; [reflexivity | split; [reflexivity|]].
  destruct (translateAddress_round_trip SampleNet.Address SampleNet.new_Address
              SampleNet.Address_fromObject SampleNet.toObject SampleNet.toString
              SampleNet.toLegacyAddress doge ltc "mc0ffee"
              (doge, mkAddressObject "c0ffee" "pubkeyhash" "regtest")
              SampleNet_reads_back SampleNet_agree_on_hash eq_refl)
    as [Hsame Hsucceeds].
  split; [exact Hsame|].
  apply Hsucceeds.
  - intros C aC HaC. eexists. exact (SampleNet_fromObject_new_Address C ltc _ _ HaC).
  - intros s G aG _ HaG. eexists. exact (SampleNet_fromObject_new_Address G doge _ _ HaG).
Defined.

Example translateAddress_round_trip_test_network :
  net_translateAddress "mc0ffee" "ltc" = Ok "mc0ffee"
  /\ net_translateAddress "Lc0ffee" "bch" = Ok "1c0ffee"
  /\ net_translateAddress "1c0ffee" "ltc" = Ok "Lc0ffee".
Proof. split; [reflexivity | split; reflexivity]. Qed.

(** The round trip of an address in the non-default format: the same hash,
    another string. *)
Example translateAddress_round_trip_not_identical :
  sample_translateAddress "qc0ffee" "doge" = Ok "Dc0ffee"
  /\ sample_translateAddress "Dc0ffee" "bch" = Ok "1c0ffee"
  /\ "1c0ffee" <> "qc0ffee".
Proof. split; [reflexivity | split; [reflexivity | discriminate]]. Qed.

(** ** Network names *)

Lemma includes_In (l : list string) (x : string) :
  includes l (Some x) = true <-> In x l.
Proof.
  simpl. rewrite List.existsb_exists. split.
  - intros (y & Hy & ->%String.eqb_eq). assumption.
  - intros H. exists x. split; [assumption | apply String.eqb_refl].
Qed.

Lemma eqb_empty_false (s : string) : s <> "" -> String.eqb s "" = false.
Proof. intros H. now destruct (String.eqb_spec s ""). Qed.

Lemma toLowerCase_nonempty (s : string) : s <> "" -> toLowerCase s <> "".
Proof. destruct s; [congruence | discriminate]. Qed.

Section NetworkFacts.

Variable NETWORK_ALIASES : gmap string (gmap string string).
Variable allowRegtest : bool.

#[local] Abbreviation getNetworkName := (getNetworkName NETWORK_ALIASES).
#[local] Abbreviation compareNetworks := (compareNetworks NETWORK_ALIASES allowRegtest).
#[local] Abbreviation resolveNetworkAlias_ToSpecific_spec :=
  (resolveNetworkAlias_ToSpecific_spec NETWORK_ALIASES).

(** The three answers of [getNetworkType]. *)
Lemma getNetworkType_cases (network : option string) :
  (getNetworkType network = "mainnet" /\ includes ["mainnet"; "livenet"] network = true)
  \/ (getNetworkType network = "regtest" /\ network = Some "regtest")
  \/ (getNetworkType network = "testnet"
      /\ includes ["mainnet"; "livenet"] network = false /\ network <> Some "regtest").
Proof.
  unfold getNetworkType.
  destruct (includes ["mainnet"; "livenet"] network) eqn:Hm; [now left | right].
  destruct network as [s|]; simpl.
  - destruct (String.eqb_spec s "regtest") as [->|Hr]; [now left | right].
    repeat split. congruence.
  - right. repeat split. discriminate.
Qed.

Lemma getNetworkType_null : getNetworkType None = "testnet".
Proof. reflexivity. Qed.

Lemma getNetworkName_present (chain network name : string) (aliases : gmap string string) :
  NETWORK_ALIASES !! chain = Some aliases ->
  aliases !! network = Some name ->
  name <> "" ->
  getNetworkName chain network = name.
Proof.
  intros Hc Hn Hne. unfold Utils.getNetworkName.
  now rewrite Hc, Hn, (eqb_empty_false _ Hne).
Qed.

Lemma getNetworkName_absent (chain network : string) :
  (forall aliases, NETWORK_ALIASES !! chain = Some aliases ->
                   aliases !! network = None \/ aliases !! network = Some "") ->
  getNetworkName chain network = network.
Proof.
  intros H. unfold Utils.getNetworkName.
  destruct (NETWORK_ALIASES !! chain) as [aliases|]; [|reflexivity].
  now destruct (H aliases eq_refl) as [-> | ->].
Qed.

Lemma getNetworkName_nonempty (chain network : string) :
  network <> "" -> getNetworkName chain network <> "".
Proof.
  intros Hne. unfold Utils.getNetworkName.
  destruct (NETWORK_ALIASES !! chain) as [aliases|]; [|assumption].
  destruct (aliases !! network) as [name|]; [|assumption].
  now destruct (String.eqb_spec name "").
Qed.

(** [compareNetworks] on two non-empty names, with the reassigned
    [network1] and [network2] named. *)
Lemma compareNetworks_nonempty (network1 network2 chain : string) :
  network1 <> "" -> network2 <> "" ->
  compareNetworks network1 network2 chain
  = let specific1 := getNetworkName chain (toLowerCase network1) in
    let specific2 := getNetworkName chain (toLowerCase network2) in
    String.eqb specific1 specific2
    || (allowRegtest
        && includes ["testnet"; "regtest"] (Some (getNetworkType (Some specific1)))
        && includes ["testnet"; "regtest"] (Some (getNetworkType (Some specific2)))).
Proof.
  intros H1 H2. unfold Utils.compareNetworks.
  rewrite (eqb_empty_false _ H1), (eqb_empty_false _ H2). cbv zeta.
  unfold looseEq at 1.
  destruct (String.eqb _ _); [reflexivity|].
  now destruct (_ && _ && _).
Qed.

(** A falsy name becomes [null]: equal to another [null] only, and of type
    testnet. *)
Lemma compareNetworks_empty (network2 chain : string) :
  compareNetworks "" network2 chain
  = if String.eqb network2 "" then true
    else allowRegtest
         && includes ["testnet"; "regtest"]
              (Some (getNetworkType (Some (getNetworkName chain (toLowerCase network2))))).
Proof.
  unfold Utils.compareNetworks.
  change (String.eqb "" "") with true. cbv iota zeta.
  destruct (String.eqb network2 ""); [reflexivity|].
  unfold looseEq at 1. rewrite getNetworkType_null.
  change (includes ["testnet"; "regtest"] (Some "testnet")) with true.
  rewrite andb_true_r. now destruct (_ && _).
Qed.

(** C6, amended. For every chain and every pair of non-empty network names
    (the chain and the lowercased names not being property names that every
    object inherits, and the names being ASCII), [compareNetworks] is true
    exactly when (i) the two names, lowercased and resolved by
    [getNetworkName], are equal, or (ii) [Config.allowRegtest] is set and
    [getNetworkType] puts both resolved names, not the names as given, in
    testnet or regtest. In particular "testnet" and "regtest" are compatible
    when regtest crossover is allowed (the chain's table not renaming either
    to the main network), and without it only when both resolve to the same
    name. *)
Theorem compareNetworks_spec (chain : string) :
  plainKey chain = true ->
  (forall network1 network2 : string,
      network1 <> "" -> network2 <> "" ->
      plainName network1 = true -> plainName network2 = true ->
      let specific1 := getNetworkName chain (toLowerCase network1) in
      let specific2 := getNetworkName chain (toLowerCase network2) in
      compareNetworks network1 network2 chain = true
      <-> specific1 = specific2
          \/ (allowRegtest = true
              /\ In (getNetworkType (Some specific1)) ["testnet"; "regtest"]
              /\ In (getNetworkType (Some specific2)) ["testnet"; "regtest"]))
  /\ (allowRegtest = true ->
      ~ In (getNetworkName chain "testnet") ["mainnet"; "livenet"] ->
      ~ In (getNetworkName chain "regtest") ["mainnet"; "livenet"] ->
      compareNetworks "testnet" "regtest" chain = true)
  /\ (allowRegtest = false ->
      compareNetworks "testnet" "regtest" chain = true
      <-> getNetworkName chain "testnet" = getNetworkName chain "regtest").
Proof.
  assert (Hiff : forall network1 network2 : string,
      network1 <> "" -> network2 <> "" ->
      compareNetworks network1 network2 chain = true
      <-> getNetworkName chain (toLowerCase network1)
          = getNetworkName chain (toLowerCase network2)
          \/ (allowRegtest = true
              /\ In (getNetworkType (Some (getNetworkName chain (toLowerCase network1))))
                    ["testnet"; "regtest"]
              /\ In (getNetworkType (Some (getNetworkName chain (toLowerCase network2))))
                    ["testnet"; "regtest"])).
  { intros network1 network2 H1 H2.
    rewrite (compareNetworks_nonempty _ _ _ H1 H2). cbv zeta.
    rewrite orb_true_iff, !andb_true_iff, String.eqb_eq, !includes_In. tauto. }
  assert (Htype : forall s, ~ In s ["mainnet"; "livenet"] ->
                            In (getNetworkType (Some s)) ["testnet"; "regtest"]).
  { intros s Hs.
    destruct (getNetworkType_cases (Some s)) as [[_ Hm] | [[-> _] | [-> _]]].
    - apply includes_In in Hm. contradiction.
    - simpl. auto.
    - simpl. auto. }
  intros _. split; [intros network1 network2 H1 H2 _ _; now apply Hiff | split].
  - intros Hallow Ht Hr.
    apply (Hiff "testnet" "regtest"); [discriminate | discriminate |].
    right. split; [assumption|]. split; apply Htype; assumption.
  - intros Hallow.
    rewrite (Hiff "testnet" "regtest") by discriminate.
    change (toLowerCase "testnet") with "testnet".
    change (toLowerCase "regtest") with "regtest".
    rewrite Hallow. split; [intros [H | [H _]]; [assumption | discriminate] | auto].
Qed.

(** C8, amended. For every chain and network string, neither of them a
    property name that every object inherits, [getNetworkName] looks the
    network string up as it is given (it does not lowercase it;
    [compareNetworks] does before the call) in the chain's alias table and
    returns the configured name when one is present and not empty;
    otherwise it returns the input unchanged. On an ASCII string that is
    already lower case, and a table without empty names, this is the
    resolution the specification describes. *)
Theorem getNetworkName_lookup (chain network : string) :
  plainKey chain = true ->
  plainKey network = true ->
  (forall aliases name,
      NETWORK_ALIASES !! chain = Some aliases ->
      aliases !! network = Some name ->
      name <> "" ->
      getNetworkName chain network = name)
  /\ ((forall aliases,
         NETWORK_ALIASES !! chain = Some aliases ->
         aliases !! network = None \/ aliases !! network = Some "") ->
      getNetworkName chain network = network)
  /\ (isAscii network = true ->
      toLowerCase network = network ->
      (forall aliases, NETWORK_ALIASES !! chain = Some aliases ->
                       aliases !! network <> Some "") ->
      getNetworkName chain network = resolveNetworkAlias_ToSpecific_spec chain network).
Proof.
  intros _ _. split; [|split].
  - intros aliases name. apply getNetworkName_present.
  - apply getNetworkName_absent.
  - intros _ Hlow Hne.
    unfold Utils.getNetworkName, Utils.resolveNetworkAlias_ToSpecific_spec.
    rewrite Hlow.
    destruct (NETWORK_ALIASES !! chain) as [aliases|]; [|reflexivity].
    specialize (Hne aliases eq_refl).
    destruct (aliases !! network) as [name|]; [|reflexivity].
    destruct (String.eqb_spec name "") as [->|]; [congruence | reflexivity].
Qed.

End NetworkFacts.

(** ** The network names at concrete inputs *)

#[local] Abbreviation sample_getNetworkName := (getNetworkName Sample.NETWORK_ALIASES).

Example getNetworkName_samples :
  List.map (fun '(chain, network) => sample_getNetworkName chain network)
    [("eth", "testnet"); ("btc", "mainnet"); ("btc", "testnet");
     ("eth", "mainnet"); ("doge", "testnet"); ("eth", "sepolia")]
  = ["sepolia"; "livenet"; "testnet3"; "mainnet"; "testnet"; "sepolia"].
Proof. vm_compute. reflexivity. Qed.

(** C8 as stated fails on a name that is not lower case: the table of the
    chain has the key "testnet", the lowercased input, yet [getNetworkName]
    looks up "TESTNET" and passes the input through. *)
Lemma getNetworkName_does_not_lowercase :
  sample_getNetworkName "eth" "TESTNET" = "TESTNET"
  /\ resolveNetworkAlias_ToSpecific_spec Sample.NETWORK_ALIASES "eth" "TESTNET" = "sepolia"
  /\ sample_getNetworkName "eth" "TESTNET"
     <> resolveNetworkAlias_ToSpecific_spec Sample.NETWORK_ALIASES "eth" "TESTNET".
Proof. vm_compute. split; [reflexivity | split; [reflexivity | discriminate]]. Qed.

Lemma getNetworkName_lookup_witness :
  plainKey "eth" = true /\ plainKey "testnet" = true
  /\ Sample.NETWORK_ALIASES !! "eth" = Some ({[ "testnet" := "sepolia" ]} : gmap string string)
  /\ ({[ "testnet" := "sepolia" ]} : gmap string string) !! "testnet" = Some "sepolia"
  /\ "sepolia" <> ""
  /\ sample_getNetworkName "eth" "testnet" = "sepolia".
Proof.
  assert (H1 : Sample.NETWORK_ALIASES !! "eth"
               = Some ({[ "testnet" := "sepolia" ]} : gmap string string))
    by (vm_compute; reflexivity).
  assert (H2 : ({[ "testnet" := "sepolia" ]} : gmap string string) !! "testnet"
               = Some "sepolia")
    by (vm_compute; reflexivity).
  assert (H3 : "sepolia" <> "") by discriminate.
  split; [reflexivity | split; [reflexivity|]].
  split; [exact H1 | split; [exact H2 | split; [exact H3|]]].
  exact (proj1 (getNetworkName_lookup Sample.NETWORK_ALIASES "eth" "testnet"
                  eq_refl eq_refl)
           _ _ H1 H2 H3).
Defined.

(** C6 as stated fails when (ii) is read on the names as given: "MainNet"
    is not a main-network name to [getNetworkType], so with regtest
    crossover the claim makes it compatible with "regtest"; the code types
    the lowercased, resolved name, which is the main network, and answers
    false. So it is with a table that has no entry for the chain. *)
Lemma compareNetworks_types_resolved_names :
  compareNetworks Sample.NETWORK_ALIASES true "MainNet" "regtest" "btc" = false
  /\ networksCompatible_spec Sample.NETWORK_ALIASES true "MainNet" "regtest" "btc" = true
  /\ compareNetworks ∅ true "MainNet" "regtest" "btc" = false
  /\ networksCompatible_spec ∅ true "MainNet" "regtest" "btc" = true.
Proof. vm_compute. repeat (split; [reflexivity|]). reflexivity. Qed.

Lemma compareNetworks_spec_witness :
  plainKey "btc" = true
  /\ "Testnet" <> "" /\ "REGTEST" <> ""
  /\ plainName "Testnet" = true /\ plainName "REGTEST" = true
  /\ (compareNetworks Sample.NETWORK_ALIASES true "Testnet" "REGTEST" "btc" = true
      <-> sample_getNetworkName "btc" (toLowerCase "Testnet")
          = sample_getNetworkName "btc" (toLowerCase "REGTEST")
          \/ (true = true
              /\ In (getNetworkType (Some (sample_getNetworkName "btc" (toLowerCase "Testnet"))))
                    ["testnet"; "regtest"]
              /\ In (getNetworkType (Some (sample_getNetworkName "btc" (toLowerCase "REGTEST"))))
                    ["testnet"; "regtest"]))
  /\ ~ In (sample_getNetworkName "btc" "testnet") ["mainnet"; "livenet"]
  /\ ~ In (sample_getNetworkName "btc" "regtest") ["mainnet"; "livenet"]
  /\ compareNetworks Sample.NETWORK_ALIASES true "testnet" "regtest" "btc" = true.
Proof.
  assert (H1 : "Testnet" <> "") by discriminate.
  assert (H2 : "REGTEST" <> "") by discriminate.
  assert (Ht : ~ In (sample_getNetworkName "btc" "testnet") ["mainnet"; "livenet"])
    by (vm_compute; intros [H | [H | []]]; discriminate).
  assert (Hr : ~ In (sample_getNetworkName "btc" "regtest") ["mainnet"; "livenet"])
    by (vm_compute; intros [H | [H | []]]; discriminate).
  destruct (compareNetworks_spec Sample.NETWORK_ALIASES true "btc" eq_refl)
    as (Hiff & Hcross & _).
  split; [reflexivity|].
  split; [exact H1 | split; [exact H2|]].
  split; [reflexivity | split; [reflexivity|]].
  split; [exact (Hiff _ _ H1 H2 eq_refl eq_refl)|].
  split; [exact Ht | split; [exact Hr | exact (Hcross eq_refl Ht Hr)]].
Defined.

Example compareNetworks_samples :
  compareNetworks Sample.NETWORK_ALIASES true "testnet" "regtest" "btc" = true
  /\ compareNetworks Sample.NETWORK_ALIASES false "testnet" "regtest" "btc" = false
  /\ compareNetworks Sample.NETWORK_ALIASES false "TESTNET" "testnet3" "btc" = true
  /\ compareNetworks Sample.NETWORK_ALIASES true "mainnet" "testnet" "btc" = false
  /\ compareNetworks Sample.NETWORK_ALIASES true "MAINNET" "testnet" "btc" = false
  /\ compareNetworks Sample.NETWORK_ALIASES false "mainnet" "livenet" "btc" = true.
Proof. vm_compute. repeat (split; [reflexivity|]). reflexivity. Qed.

(** * Further properties of the verifier *)

Lemma append_String (c : ascii) (s t : string) :
  String.append (String c s) t = String c (String.append s t).
Proof. reflexivity. Qed.

Lemma hex_pair (x : byte) :
  hex_value (hex_digit (Byte.to_N x / 16)) = Some (Byte.to_N x / 16)%N
  /\ hex_value (hex_digit (Byte.to_N x mod 16)) = Some (Byte.to_N x mod 16)%N
  /\ byte_of_N (16 * (Byte.to_N x / 16) + Byte.to_N x mod 16) = x.
Proof. destruct x; vm_compute; repeat split. Qed.

(** Decoding resumes after a rendered buffer: the hex of [b] followed by
    any text decodes to [b] followed by what the text decodes to. *)
Lemma hexDecode_toHex_app (b : list byte) (t : string) :
  hexDecode (String.append (toHex b) t) = b ++ hexDecode t.
Proof.
  induction b as [|x b IH]; [reflexivity|].
  change (toHex (x :: b))
    with (String (hex_digit (Byte.to_N x / 16))
            (String (hex_digit (Byte.to_N x mod 16)) (toHex b))).
  rewrite !append_String.
  change (hexDecode (String ?h (String ?l ?r)))
    with (match hex_value h, hex_value l with
          | Some hv, Some lv => byte_of_N (16 * hv + lv) :: hexDecode r
          | _, _ => []
          end).
  destruct (hex_pair x) as (-> & -> & ->). now rewrite IH.
Qed.

Lemma hexDecode_toHex (b : list byte) : hexDecode (toHex b) = b.
Proof.
  rewrite <- (append_empty_r (toHex b)), hexDecode_toHex_app.
  apply List.app_nil_r.
Qed.

Lemma hex_value_lowerChar (c : ascii) : hex_value (lowerChar c) = hex_value c.
Proof. destruct c as [[] [] [] [] [] [] [] []]; reflexivity. Qed.

Lemma hexDecode_toLowerCase (s : string) : hexDecode (toLowerCase s) = hexDecode s.
Proof.
  enough (H : hexDecode (toLowerCase s) = hexDecode s
              /\ forall c, hexDecode (toLowerCase (String c s)) = hexDecode (String c s))
    by apply H.
  induction s as [|d s [IH1 IH2]]; [split; [reflexivity | intros c; reflexivity]|].
  split; [apply IH2|].
  intros c.
  change (hexDecode (toLowerCase (String c (String d s))))
    with (match hex_value (lowerChar c), hex_value (lowerChar d) with
          | Some hv, Some lv => byte_of_N (16 * hv + lv) :: hexDecode (toLowerCase s)
          | _, _ => []
          end).
  rewrite !hex_value_lowerChar, IH1. reflexivity.
Qed.

Section VerifierMore.

Variable octetOfString : string -> byte.
Variable signatureImport : list byte -> result (list byte).
Variable ecdsaVerify : list byte -> list byte -> list byte -> result bool.

#[local] Abbreviation hashMessage := (Utils.hashMessage octetOfString).
#[local] Abbreviation verifyMessage :=
  (Utils.verifyMessage octetOfString signatureImport ecdsaVerify).
#[local] Abbreviation _tryImportSignature :=
  (Utils._tryImportSignature octetOfString signatureImport).
#[local] Abbreviation _tryImportPublicKey := (Utils._tryImportPublicKey octetOfString).
#[local] Abbreviation Buffer_from := (Utils.Buffer_from octetOfString).
#[local] Abbreviation verdict := (Utils.verdict octetOfString signatureImport ecdsaVerify).

(** [verifyMessage] sees the signature and the key only through the two
    imports. *)
Lemma verifyMessage_imports (message s s' p p' : jsval) :
  _tryImportSignature s = _tryImportSignature s' ->
  _tryImportPublicKey p = _tryImportPublicKey p' ->
  verifyMessage message s p = verifyMessage message s' p'.
Proof.
  intros Hs Hp. destruct (nonEmptyMessage message) eqn:Hm.
  - destruct (nonEmptyMessage_buffer octetOfString _ Hm) as [b Hb].
    rewrite !(verifyMessage_nonEmpty _ _ _ _ _ _ b Hm Hb).
    unfold Utils.verdict. now rewrite Hs, Hp.
  - now rewrite !verifyMessage_empty.
Qed.

(** X1. Whenever [hashMessage] returns, with or without reversal and
    whatever it is given (text, a sequence, raw bytes), the digest has
    exactly 32 octets. *)
Theorem hashMessage_digest_length (text : jsval) (noReverse : bool) (d : list byte) :
  hashMessage text noReverse = Ok d -> List.length d = 32%nat.
Proof.
  destruct (truthy text) eqn:Ht.
  - destruct (Buffer_from_truthy octetOfString _ Ht) as [b Hb].
    rewrite (hashMessage_truthy _ _ _ _ Ht Hb). intros H.
    assert (Hd : d = if noReverse then sha256sha256 b else rev (sha256sha256 b))
      by congruence.
    rewrite Hd.
    destruct noReverse; rewrite ?List.length_rev; apply sha256sha256_length.
  - now rewrite (hashMessage_falsy _ _ _ Ht).
Qed.

(** X2. [verifyMessage] answers [true] only when [ecdsaVerify] itself
    returned [true] on the imported signature, the non-reversed double
    SHA-256 of the flattened message and the imported key; a throwing or
    refusing primitive, or a failed import, never yields [true]. *)
Theorem verifyMessage_true_iff (message signature publicKey : jsval) :
  verifyMessage message signature publicKey = Ok true
  <-> exists b sig key,
        nonEmptyMessage message = true
        /\ Buffer_from (flatten message) = Ok b
        /\ _tryImportSignature signature = Some sig
        /\ _tryImportPublicKey publicKey = Some key
        /\ ecdsaVerify sig (sha256sha256 b) key = Ok true.
Proof.
  split.
  - intros H. destruct (nonEmptyMessage message) eqn:Hm.
    + destruct (nonEmptyMessage_buffer octetOfString _ Hm) as [b Hb].
      rewrite (verifyMessage_nonEmpty _ _ _ _ _ _ b Hm Hb) in H.
      unfold Utils.verdict, _tryVerifyMessage, try_catch in H.
      destruct (_tryImportSignature signature) as [sig|] eqn:Hs; [|discriminate].
      destruct (_tryImportPublicKey publicKey) as [key|] eqn:Hk; [|discriminate].
      destruct (ecdsaVerify sig (sha256sha256 b) key) as [[]|] eqn:He; try discriminate.
      now exists b, sig, key.
    + rewrite verifyMessage_empty in H by assumption. discriminate.
  - intros (b & sig & key & Hm & Hb & Hs & Hk & He).
    rewrite (verifyMessage_nonEmpty _ _ _ _ _ _ b Hm Hb).
    unfold Utils.verdict, _tryVerifyMessage, try_catch. now rewrite Hs, Hk, He.
Qed.

(** X3. A signature or a public key may be passed as raw bytes or as their
    hexadecimal text (ASCII), in either letter case: [verifyMessage] answers
    the same. *)
Theorem verifyMessage_hex_or_raw (message signature publicKey : jsval) (b : list byte)
        (s : string) :
  isAscii s = true ->
  hexDecode s = b ->
  verifyMessage message (JStr s) publicKey = verifyMessage message (JBuf b) publicKey
  /\ verifyMessage message signature (JStr s) = verifyMessage message signature (JBuf b)
  /\ verifyMessage message (JStr (toLowerCase s)) publicKey
     = verifyMessage message (JStr s) publicKey
  /\ verifyMessage message signature (JStr (toLowerCase s))
     = verifyMessage message signature (JStr s)
  /\ verifyMessage message (JStr (toHex b)) publicKey
     = verifyMessage message (JStr s) publicKey.
Proof.
  intros _ Hb. repeat split; apply verifyMessage_imports; try reflexivity;
    unfold Utils._tryImportSignature, Utils._tryImportPublicKey; simpl;
    now rewrite ?hexDecode_toLowerCase, ?hexDecode_toHex, ?Hb.
Qed.

(** X4. Hex decoding stops silently at the first pair that is not
    hexadecimal: a key or signature string made of the hex of [b] followed
    by an ASCII tail that does not begin with a hex pair (a stray digit,
    "zz", anything) is taken for [b]; it is neither an error nor a [false]. *)
Theorem verifyMessage_ignores_tail (message signature publicKey : jsval) (b : list byte)
        (tail : string) :
  isAscii tail = true ->
  hexDecode tail = [] ->
  _tryImportPublicKey (JStr (String.append (toHex b) tail)) = Some b
  /\ verifyMessage message signature (JStr (String.append (toHex b) tail))
     = verifyMessage message signature (JBuf b)
  /\ verifyMessage message (JStr (String.append (toHex b) tail)) publicKey
     = verifyMessage message (JBuf b) publicKey.
Proof.
  intros _ Ht.
  assert (Hd : hexDecode (String.append (toHex b) tail) = b)
    by now rewrite hexDecode_toHex_app, Ht, List.app_nil_r.
  split; [|split].
  - unfold Utils._tryImportPublicKey. simpl. now rewrite Hd.
  - apply verifyMessage_imports; [reflexivity|].
    unfold Utils._tryImportPublicKey. simpl. now rewrite Hd.
  - apply verifyMessage_imports; [|reflexivity].
    unfold Utils._tryImportSignature. simpl. now rewrite Hd.
Qed.

(** X5. Non-empty text and the buffer of its bytes are the same message;
    the empty buffer, unlike the empty string, passes the precondition and
    is verified as the empty message. *)
Theorem verifyMessage_text_or_bytes (text : string) (signature publicKey : jsval) :
  (text <> "" ->
   verifyMessage (JStr text) signature publicKey
   = verifyMessage (JBuf (list_byte_of_string text)) signature publicKey)
  /\ verifyMessage (JBuf []) signature publicKey
     = Ok (verdict (sha256sha256 []) signature publicKey)
  /\ verifyMessage (JStr "") signature publicKey = Throw IllegalArgumentError.
Proof.
  split; [|split].
  - intros Hne%truthy_JStr.
    rewrite (verifyMessage_nonEmpty _ _ _ (JStr text) _ _ (list_byte_of_string text)),
            (verifyMessage_nonEmpty _ _ _ (JBuf _) _ _ (list_byte_of_string text));
      try reflexivity.
    unfold nonEmptyMessage. simpl flatten. now rewrite Hne.
  - now apply verifyMessage_nonEmpty.
  - now apply verifyMessage_empty.
Qed.

End VerifierMore.

Lemma hashMessage_digest_length_witness :
  Utils.hashMessage Sample.octetOfString (JStr "abc") false
  = Ok (rev (sha256sha256 (list_byte_of_string "abc")))
  /\ List.length (rev (sha256sha256 (list_byte_of_string "abc"))) = 32%nat.
Proof.
  assert (H : Utils.hashMessage Sample.octetOfString (JStr "abc") false
              = Ok (rev (sha256sha256 (list_byte_of_string "abc"))))
    by now apply hashMessage_reverse.
  split; [exact H|].
  exact (hashMessage_digest_length Sample.octetOfString (JStr "abc") false _ H).
Defined.

Lemma verifyMessage_hex_or_raw_witness :
  isAscii "3020AbCd" = true
  /\ hexDecode "3020AbCd" = [x30; x20; xab; xcd]
  /\ Utils.verifyMessage Sample.octetOfString Sample.signatureImport Sample.ecdsaVerify
       (JStr "abc") (JStr "3020AbCd") JNull
     = Utils.verifyMessage Sample.octetOfString Sample.signatureImport Sample.ecdsaVerify
         (JStr "abc") (JBuf [x30; x20; xab; xcd]) JNull.
Proof.
  split; [reflexivity | split; [reflexivity|]].
  exact (proj1 (verifyMessage_hex_or_raw Sample.octetOfString Sample.signatureImport
                  Sample.ecdsaVerify (JStr "abc") JNull JNull [x30; x20; xab; xcd]
                  "3020AbCd" eq_refl eq_refl)).
Defined.

Lemma verifyMessage_ignores_tail_witness :
  isAscii "zz-not-hex" = true
  /\ hexDecode "zz-not-hex" = []
  /\ Utils._tryImportPublicKey Sample.octetOfString
       (JStr (String.append (toHex [x02; xab]) "zz-not-hex")) = Some [x02; xab].
Proof.
  split; [reflexivity | split; [reflexivity|]].
  exact (proj1 (verifyMessage_ignores_tail Sample.octetOfString Sample.signatureImport
                  Sample.ecdsaVerify (JStr "abc") JNull JNull [x02; xab] "zz-not-hex"
                  eq_refl eq_refl)).
Defined.

Lemma verifyMessage_text_or_bytes_witness :
  "abc" <> ""
  /\ Utils.verifyMessage Sample.octetOfString Sample.signatureImport Sample.ecdsaVerify
       (JStr "abc") (JStr "3020") JNull
     = Utils.verifyMessage Sample.octetOfString Sample.signatureImport Sample.ecdsaVerify
         (JBuf (list_byte_of_string "abc")) (JStr "3020") JNull.
Proof.
  assert (H : "abc" <> "") by discriminate.
  split; [exact H|].
  exact (proj1 (verifyMessage_text_or_bytes Sample.octetOfString Sample.signatureImport
                  Sample.ecdsaVerify "abc" (JStr "3020") JNull) H).
Defined.

(** With the sample verifier: a key with a tail that is not hex still
    verifies. *)
Example verifyMessage_accepts_key_with_tail :
  Utils.verifyMessage Sample.octetOfString Sample.signatureImport Sample.ecdsaVerify
    (JStr "abc")
    (JStr "30204f8b42c22dd3729b519ba6f68d2da7cc5b2d606d05daed5ad5128cc03e6c6358")
    (JStr "02aaaaaaaaaaaaaaaaaaaaaaaaaaaaaaaaaaaaaaaaaaaaaaaaaaaaaaaaaaaaaaaa!!")
  = Ok true.
Proof. vm_compute. reflexivity. Qed.

(** * Further properties of the address resolver *)

Lemma coinName_inj (c c' : Coin) : coinName c = coinName c' -> c = c'.
Proof. destruct c, c'; simpl; intros H; try reflexivity; discriminate. Qed.

Section ResolverMore.

Variable Address : Type.
Variable new_Address : Coin -> string -> result Address.
Variable Address_fromObject : Coin -> AddressObject -> result Address.
Variable toObject : Address -> AddressObject.
Variable toString : Address -> string.
Variable toLegacyAddress : Address -> string.

#[local] Abbreviation getAddressCoin := (Utils.getAddressCoin Address new_Address).
#[local] Abbreviation accepted := (Utils.accepted Address new_Address).
#[local] Abbreviation render := (Utils.render Address toString toLegacyAddress).
#[local] Abbreviation translateAddress :=
  (Utils.translateAddress Address new_Address Address_fromObject toObject toString
     toLegacyAddress).
#[local] Abbreviation ReadsOwnRendering :=
  (Utils.ReadsOwnRendering Address new_Address Address_fromObject toObject toString
     toLegacyAddress).

(** What a classification tells: the library named takes the address, and
    no library tried before it does. *)
Lemma getAddressCoin_Some (address c : string) :
  getAddressCoin address = Some c ->
  exists lib a,
    c = coinName lib /\ new_Address lib address = Ok a
    /\ forall lib', coinRank lib' < coinRank lib -> accepted address lib' = false.
Proof.
  unfold Utils.getAddressCoin, Utils.accepted, returns.
  destruct (new_Address btc address) as [a0|] eqn:H0.
  { intros [= <-]. exists btc, a0. repeat split; trivial.
    intros []; simpl; lia. }
  destruct (new_Address bch address) as [a1|] eqn:H1.
  { intros [= <-]. exists bch, a1. repeat split; trivial.
    intros []; simpl; intros; rewrite ?H0; trivial; lia. }
  destruct (new_Address doge address) as [a2|] eqn:H2.
  { intros [= <-]. exists doge, a2. repeat split; trivial.
    intros []; simpl; intros; rewrite ?H0, ?H1; trivial; lia. }
  destruct (new_Address ltc address) as [a3|] eqn:H3; [|discriminate].
  intros [= <-]. exists ltc, a3. repeat split; trivial.
  intros []; simpl; intros; rewrite ?H0, ?H1, ?H2; trivial; lia.
Qed.

(** Past the classification, [translateAddress] is the import of the
    decoded object under the target. *)
Lemma translateAddress_after_classification (address coin : string) (lib : Coin)
      (a : Address) :
  getAddressCoin address = Some (coinName lib) ->
  new_Address lib address = Ok a ->
  translateAddress address coin
  = (target ← Bitcore_Address (Some coin);
     result ← Address_fromObject target (toObject a);
     Ok (render coin result)).
Proof.
  intros Hc Ha. unfold Utils.translateAddress.
  rewrite Hc. unfold Bitcore_Address. rewrite Bitcore_coinName.
  unfold mbind at 1, result_bind at 1. rewrite Ha. reflexivity.
Qed.

(** X6. [translateAddress] throws in exactly three situations: the address
    is not classified ([TypeError]); it is, but the target is not one of
    "btc", "bch", "doge", "ltc" ([TypeError]); or the target's [fromObject]
    refuses the decoded object (its own error). The second construction of
    the source address never fails. *)
Theorem translateAddress_throws_iff (address coin : string) (e : error) :
  translateAddress address coin = Throw e
  <-> (getAddressCoin address = None /\ e = TypeError)
      \/ exists lib a,
           getAddressCoin address = Some (coinName lib)
           /\ new_Address lib address = Ok a
           /\ ((Bitcore_ (Some coin) = None /\ e = TypeError)
               \/ exists target,
                    Bitcore_ (Some coin) = Some target
                    /\ Address_fromObject target (toObject a) = Throw e).
Proof.
  destruct (getAddressCoin address) as [c|] eqn:Hc.
  - destruct (getAddressCoin_Some _ _ Hc) as (lib & a & -> & Ha & _).
    rewrite (translateAddress_after_classification _ coin lib a Hc Ha).
    unfold Bitcore_Address, mbind, result_bind.
    split.
    + intros H. right. exists lib, a. repeat split; trivial.
      destruct (Bitcore_ (Some coin)) as [target|]; [right | left].
      * exists target. split; [reflexivity|].
        destruct (Address_fromObject target (toObject a)); [discriminate | congruence].
      * split; [reflexivity | congruence].
    + intros [[H _] | (lib' & a' & Hc' & Ha' & H)]; [discriminate|].
      assert (lib' = lib) as -> by (apply coinName_inj; congruence).
      assert (a' = a) as -> by congruence.
      destruct H as [[-> ->] | (target & -> & ->)]; reflexivity.
  - rewrite (translateAddress_unclassified _ _ _ _ _ _ _ _ Hc). split.
    + intros [= <-]. now left.
    + intros [[_ ->] | (lib & a & H & _)]; [reflexivity | discriminate].
Qed.

(** X7. [translateAddress] depends on the source address only through the
    object its classifying library reads from it: two addresses whose
    classifying libraries read the same object are translated alike, to the
    same result or the same error, under every target. Nothing is asked of
    the libraries. *)
Theorem translateAddress_same_identity (a b coin : string) (C D : Coin) (x y : Address) :
  getAddressCoin a = Some (coinName C) ->
  new_Address C a = Ok x ->
  getAddressCoin b = Some (coinName D) ->
  new_Address D b = Ok y ->
  toObject x = toObject y ->
  translateAddress a coin = translateAddress b coin.
Proof.
  intros HC Hx HD Hy Hxy.
  rewrite (translateAddress_after_classification _ coin C x HC Hx),
          (translateAddress_after_classification _ coin D y HD Hy).
  now rewrite Hxy.
Qed.

Lemma translateAddress_Ok (address coin s : string) :
  translateAddress address coin = Ok s ->
  exists lib a target r,
    getAddressCoin address = Some (coinName lib)
    /\ new_Address lib address = Ok a
    /\ coin = coinName target
    /\ Address_fromObject target (toObject a) = Ok r
    /\ s = render coin r.
Proof.
  intros H. destruct (getAddressCoin address) as [c|] eqn:Hc.
  - destruct (getAddressCoin_Some _ _ Hc) as (lib & a & -> & Ha & _).
    rewrite (translateAddress_after_classification _ coin lib a Hc Ha) in H.
    unfold Bitcore_Address, mbind, result_bind in H.
    destruct (Bitcore_ (Some coin)) as [target|] eqn:Ht; [|discriminate].
    destruct (Address_fromObject target (toObject a)) as [r|] eqn:Hr; [|discriminate].
    exists lib, a, target, r. repeat split; trivial.
    + now apply Bitcore_Some.
    + congruence.
  - rewrite (translateAddress_unclassified _ _ _ _ _ _ _ _ Hc) in H. discriminate.
Qed.

(** X9. When every library that takes the object read from an address
    reads what it then writes, what [translateAddress] returns is always an
    address [getAddressCoin] classifies, under the target or a library tried
    before it: never under a later one, and not always under the target
    itself. *)
Theorem translateAddress_result_classified (address coin s : string) :
  ReadsOwnRendering ->
  translateAddress address coin = Ok s ->
  exists target lib,
    coin = coinName target
    /\ getAddressCoin s = Some (coinName lib)
    /\ coinRank lib <= coinRank target.
Proof.
  intros Hrender H.
  destruct (translateAddress_Ok _ _ _ H) as (lib & a & target & r & _ & Ha & -> & Hr & ->).
  destruct (Hrender _ _ _ _ _ Ha Hr) as (a1 & Ha1).
  destruct (getAddressCoin_classifies _ _ _ target a1 Ha1) as (G & aG & HG & HaG).
  exists target, G. repeat split; trivial.
  destruct (getAddressCoin_Some _ _ HG) as (G' & aG' & Hn & _ & Hearlier).
  assert (G' = G) as -> by (apply coinName_inj; congruence).
  destruct (Nat.le_gt_cases (coinRank G) (coinRank target)) as [Hle | Hlt]; [assumption|].
  specialize (Hearlier target Hlt). unfold Utils.accepted in Hearlier.
  rewrite Ha1 in Hearlier. discriminate.
Qed.

End ResolverMore.

#[local] Abbreviation sample_translate :=
  (Utils.translateAddress Sample.Address Sample.new_Address Sample.Address_fromObject
     Sample.toObject Sample.toString Sample.toLegacyAddress).

#[local] Abbreviation net_translate :=
  (Utils.translateAddress SampleNet.Address SampleNet.new_Address
     SampleNet.Address_fromObject SampleNet.toObject SampleNet.toString
     SampleNet.toLegacyAddress).

Lemma translateAddress_same_identity_witness :
  Utils.getAddressCoin Sample.Address Sample.new_Address "qc0ffee" = Some "bch"
  /\ Utils.getAddressCoin Sample.Address Sample.new_Address "Dc0ffee" = Some "doge"
  /\ sample_translate "qc0ffee" "ltc" = sample_translate "Dc0ffee" "ltc".
Proof.
  split; [reflexivity | split; [reflexivity|]].
  apply (translateAddress_same_identity Sample.Address Sample.new_Address
           Sample.Address_fromObject Sample.toObject Sample.toString Sample.toLegacyAddress
           "qc0ffee" "Dc0ffee" "ltc" bch doge
           (bch, mkAddressObject "c0ffee" "pubkeyhash" "livenet")
           (doge, mkAddressObject "c0ffee" "pubkeyhash" "livenet")); reflexivity.
Defined.

Lemma SampleNet_reads_own_rendering :
  Utils.ReadsOwnRendering SampleNet.Address SampleNet.new_Address
    SampleNet.Address_fromObject SampleNet.toObject SampleNet.toString
    SampleNet.toLegacyAddress.
Proof.
  intros lib0 s0 a0 lib r Ha0 Hr.
  destruct (SampleNet_reads_back lib0 s0 a0 lib r Ha0 Hr) as (a & Ha & _).
  now exists a.
Qed.

Lemma translateAddress_result_classified_witness :
  net_translate "Dc0ffee" "bch" = Ok "1c0ffee"
  /\ exists target lib,
       "bch" = coinName target
       /\ Utils.getAddressCoin SampleNet.Address SampleNet.new_Address "1c0ffee"
          = Some (coinName lib)
       /\ coinRank lib <= coinRank target.
Proof.
  assert (H : net_translate "Dc0ffee" "bch" = Ok "1c0ffee") by reflexivity.
  split; [exact H|].
  exact (translateAddress_result_classified SampleNet.Address SampleNet.new_Address
           SampleNet.Address_fromObject SampleNet.toObject SampleNet.toString
           SampleNet.toLegacyAddress "Dc0ffee" "bch" "1c0ffee"
           SampleNet_reads_own_rendering H).
Defined.

(** In the sample codec the legacy form written for bch is read first by
    btc: the translated address is classified under the earlier library. *)
Example translateAddress_to_bch_classified_btc :
  sample_translate "Dc0ffee" "bch" = Ok "1c0ffee"
  /\ Utils.getAddressCoin Sample.Address Sample.new_Address "1c0ffee" = Some "btc".
Proof. split; reflexivity. Qed.

(** * Further properties of the network names *)

Lemma lowerChar_idempotent (c : ascii) : lowerChar (lowerChar c) = lowerChar c.
Proof. destruct c as [[] [] [] [] [] [] [] []]; reflexivity. Qed.

Lemma toLowerCase_idempotent (s : string) : toLowerCase (toLowerCase s) = toLowerCase s.
Proof.
  induction s as [|c s IH]; [reflexivity|].
  simpl. now rewrite lowerChar_idempotent, IH.
Qed.

Lemma toLowerCase_eqb_empty (s : string) :
  String.eqb (toLowerCase s) "" = String.eqb s "".
Proof. now destruct s. Qed.

Lemma looseEq_eq (a b : option string) : looseEq a b = true <-> a = b.
Proof.
  destruct a as [x|], b as [y|]; simpl; try (split; congruence).
  rewrite String.eqb_eq. split; congruence.
Qed.

Lemma looseEq_sym (a b : option string) : looseEq a b = looseEq b a.
Proof. destruct a, b; simpl; trivial. apply String.eqb_sym. Qed.

Lemma looseEq_refl (a : option string) : looseEq a a = true.
Proof. now apply looseEq_eq. Qed.

Section NetworkMore.

Variable NETWORK_ALIASES : gmap string (gmap string string).
Variable allowRegtest : bool.
Variable NETWORK_CHAINS : list string.

#[local] Abbreviation getNetworkName := (Utils.getNetworkName NETWORK_ALIASES).
#[local] Abbreviation compareNetworks :=
  (Utils.compareNetworks NETWORK_ALIASES allowRegtest).
#[local] Abbreviation getGenericName :=
  (Utils.getGenericName NETWORK_ALIASES NETWORK_CHAINS).
#[local] Abbreviation testnetAliasIs := (Utils.testnetAliasIs NETWORK_ALIASES).

(** The reassigned [network1] of [compareNetworks]. *)
#[local] Abbreviation resolved chain n :=
  (if String.eqb n "" then None else Some (getNetworkName chain (toLowerCase n))).

(** Whether [getNetworkType] puts a resolved name in testnet or regtest. *)
#[local] Abbreviation crossable r :=
  (includes ["testnet"; "regtest"] (Some (getNetworkType r))).

Lemma compareNetworks_resolved (network1 network2 chain : string) :
  compareNetworks network1 network2 chain
  = looseEq (resolved chain network1) (resolved chain network2)
    || (allowRegtest && crossable (resolved chain network1)
        && crossable (resolved chain network2)).
Proof.
  unfold Utils.compareNetworks. cbv zeta.
  destruct (looseEq _ _); [reflexivity|].
  now destruct (allowRegtest && _ && _).
Qed.

(** X10. [getNetworkType] answers "mainnet", "regtest" or "testnet", and
    classifying its own answer gives the answer again; [null] and every
    unknown name are "testnet". *)
Theorem getNetworkType_stable (network : option string) :
  In (getNetworkType network) ["mainnet"; "regtest"; "testnet"]
  /\ getNetworkType (Some (getNetworkType network)) = getNetworkType network
  /\ (~ In network [Some "mainnet"; Some "livenet"; Some "regtest"] ->
      getNetworkType network = "testnet").
Proof.
  destruct (getNetworkType_cases network) as [[E Hm] | [[E Hr] | [E _]]]; rewrite E.
  - split; [simpl; auto | split; [reflexivity|]].
    intros H. exfalso. apply H.
    destruct network as [s|]; [|discriminate].
    apply includes_In in Hm. destruct Hm as [<- | [<- | []]]; simpl; auto.
  - split; [simpl; auto | split; [reflexivity|]].
    intros H. exfalso. apply H. rewrite Hr. simpl. auto.
  - split; [simpl; auto | split; reflexivity].
Qed.

(** X11. For every chain that is not a property name every object
    inherits, every alias table and setting of [Config.allowRegtest],
    [compareNetworks] is reflexive and symmetric, and it is transitive on
    the ASCII names whose lowercased forms are not such property names
    either: on them it is an equivalence. *)
Theorem compareNetworks_equivalence (chain : string) :
  plainKey chain = true ->
  (forall n, compareNetworks n n chain = true)
  /\ (forall n1 n2, compareNetworks n1 n2 chain = compareNetworks n2 n1 chain)
  /\ (forall n1 n2 n3,
        plainName n1 = true -> plainName n2 = true -> plainName n3 = true ->
        compareNetworks n1 n2 chain = true ->
        compareNetworks n2 n3 chain = true ->
        compareNetworks n1 n3 chain = true).
Proof.
  intros _. split; [|split].
  - intros n. rewrite compareNetworks_resolved. now rewrite looseEq_refl.
  - intros n1 n2. rewrite !compareNetworks_resolved.
    rewrite (looseEq_sym (resolved chain n1)). f_equal.
    rewrite <- !andb_assoc. f_equal. apply andb_comm.
  - intros n1 n2 n3 _ _ _. rewrite !compareNetworks_resolved.
    rewrite !orb_true_iff, !andb_true_iff, !looseEq_eq.
    intros [E12 | [[Ha H1] H2]] [E23 | [[Ha' H2'] H3]].
    + left. congruence.
    + right. rewrite E12. auto.
    + right. rewrite <- E23. auto.
    + right. auto.
Qed.

(** X12. [compareNetworks] does not see the letter case of the ASCII names
    it is given. *)
Theorem compareNetworks_case_insensitive (network1 network2 chain : string) :
  isAscii network1 = true ->
  isAscii network2 = true ->
  compareNetworks network1 network2 chain
  = compareNetworks (toLowerCase network1) (toLowerCase network2) chain.
Proof.
  intros _ _. rewrite !compareNetworks_resolved.
  now rewrite !toLowerCase_eqb_empty, !toLowerCase_idempotent.
Qed.

(** X13. A name that resolves to "mainnet" or "livenet" is compatible
    only with a name that resolves to the very same string, with or without
    [Config.allowRegtest]: regtest crossover never reaches the main network,
    and "mainnet" and "livenet" themselves are compatible only through an
    alias. *)
Theorem compareNetworks_mainnet_isolated (network1 network2 chain : string) :
  network1 <> "" ->
  In (getNetworkName chain (toLowerCase network1)) ["mainnet"; "livenet"] ->
  compareNetworks network1 network2 chain = true
  <-> network2 <> ""
      /\ getNetworkName chain (toLowerCase network2)
         = getNetworkName chain (toLowerCase network1).
Proof.
  intros H1 Hmain. rewrite compareNetworks_resolved.
  rewrite (eqb_empty_false _ H1).
  assert (Hcross : crossable (Some (getNetworkName chain (toLowerCase network1))) = false).
  { apply includes_In in Hmain. unfold getNetworkType. now rewrite Hmain. }
  rewrite Hcross, andb_false_r, orb_false_r, looseEq_eq.
  destruct (String.eqb_spec network2 "") as [->|H2].
  - split; [discriminate | intros [[] _]; reflexivity].
  - split; [intros [= ->]; now split | intros [_ ->]; reflexivity].
Qed.


(** X15. Generic to specific and back: where a chain of the table has a
    non-empty alias for "testnet" (other than "mainnet"), [getGenericName]
    maps what [getNetworkName] returns for "testnet" back to "testnet". *)
Theorem getGenericName_getNetworkName (chain t : string) (aliases : gmap string string) :
  In chain NETWORK_CHAINS ->
  ~ In "" NETWORK_CHAINS ->
  NETWORK_ALIASES !! chain = Some aliases ->
  aliases !! "testnet" = Some t ->
  t <> "" -> t <> "mainnet" ->
  getNetworkName chain "testnet" = t
  /\ getGenericName (getNetworkName chain "testnet") = "testnet".
Proof.
  intros Hin Hempty Hc Ht Hne Hmain.
  rewrite (getNetworkName_present _ _ _ _ _ Hc Ht Hne). split; [reflexivity|].
  unfold Utils.getGenericName. rewrite (proj2 (String.eqb_neq _ _) Hmain). cbv zeta.
  destruct (List.find (testnetAliasIs t) NETWORK_CHAINS) as [key|] eqn:Hf.
  - apply List.find_some in Hf as [Hkey _].
    destruct (String.eqb_spec key "") as [->|_]; [contradiction | reflexivity].
  - pose proof (List.find_none _ _ Hf chain Hin) as Hn.
    unfold Utils.testnetAliasIs in Hn. rewrite Hc, Ht in Hn. simpl in Hn.
    now rewrite String.eqb_refl in Hn.
Qed.

(** X16. Generic naming keeps the network type: when no chain of the table
    calls its testnet "livenet" or "regtest", [getNetworkType] answers the
    same for a name and for its generic name. *)
Theorem getGenericName_keeps_type (network : string) :
  (forall key aliases,
      NETWORK_ALIASES !! key = Some aliases ->
      aliases !! "testnet" <> Some "livenet" /\ aliases !! "testnet" <> Some "regtest") ->
  getNetworkType (Some (getGenericName network)) = getNetworkType (Some network).
Proof.
  intros Hsane. unfold Utils.getGenericName.
  destruct (String.eqb_spec network "mainnet") as [->|Hne]; [reflexivity|].
  cbv zeta.
  destruct (List.find (testnetAliasIs network) NETWORK_CHAINS) as [key|] eqn:Hf;
    [|reflexivity].
  destruct (negb (String.eqb key "")); [|reflexivity].
  apply List.find_some in Hf as [_ Halias]. unfold Utils.testnetAliasIs in Halias.
  destruct (NETWORK_ALIASES !! key) as [aliases|] eqn:Hk; [|discriminate].
  apply looseEq_eq in Halias. destruct (Hsane key aliases Hk) as [Hl Hr].
  symmetry.
  destruct (getNetworkType_cases (Some network)) as [[_ Hm] | [[_ E] | [E _]]].
  - apply includes_In in Hm. destruct Hm as [<- | [<- | []]]; congruence.
  - congruence.
  - exact E.
Qed.

End NetworkMore.

Lemma getNetworkType_stable_witness :
  ~ In (Some "sepolia") [Some "mainnet"; Some "livenet"; Some "regtest"]
  /\ getNetworkType (Some "sepolia") = "testnet".
Proof.
  assert (H : ~ In (Some "sepolia") [Some "mainnet"; Some "livenet"; Some "regtest"])
    by (intros [H | [H | [H | []]]]; discriminate).
  split; [exact H|].
  exact (proj2 (proj2 (getNetworkType_stable (Some "sepolia"))) H).
Defined.

#[local] Abbreviation sample_compareNetworks :=
  (Utils.compareNetworks Sample.NETWORK_ALIASES).
#[local] Abbreviation sample_getGenericName :=
  (Utils.getGenericName Sample.NETWORK_ALIASES Sample.NETWORK_CHAINS).

Lemma Sample_aliases_lookup (key : string) (aliases : gmap string string) :
  Sample.NETWORK_ALIASES !! key = Some aliases ->
  (key = "btc" /\ aliases = {[ "mainnet" := "livenet"; "testnet" := "testnet3" ]})
  \/ (key = "eth" /\ aliases = {[ "testnet" := "sepolia" ]}).
Proof.
  unfold Sample.NETWORK_ALIASES.
  intros [[<- <-] | [_ [<- <-]%lookup_singleton_Some]]%lookup_insert_Some; auto.
Qed.

Lemma compareNetworks_equivalence_witness :
  plainKey "eth" = true
  /\ plainName "Testnet" = true /\ plainName "regtest" = true /\ plainName "signet" = true
  /\ sample_compareNetworks true "Testnet" "regtest" "eth" = true
  /\ sample_compareNetworks true "regtest" "signet" "eth" = true
  /\ sample_compareNetworks true "Testnet" "signet" "eth" = true.
Proof.
  assert (H1 : sample_compareNetworks true "Testnet" "regtest" "eth" = true)
    by (vm_compute; reflexivity).
  assert (H2 : sample_compareNetworks true "regtest" "signet" "eth" = true)
    by (vm_compute; reflexivity).
  split; [reflexivity|].
  split; [reflexivity | split; [reflexivity | split; [reflexivity|]]].
  split; [exact H1 | split; [exact H2|]].
  exact (proj2 (proj2 (compareNetworks_equivalence Sample.NETWORK_ALIASES true "eth"
                         eq_refl))
           "Testnet" "regtest" "signet" eq_refl eq_refl eq_refl H1 H2).
Defined.

Lemma compareNetworks_case_insensitive_witness :
  isAscii "TestNet" = true /\ isAscii "SEPOLIA" = true
  /\ sample_compareNetworks false "TestNet" "SEPOLIA" "eth"
     = sample_compareNetworks false "testnet" "sepolia" "eth"
  /\ sample_compareNetworks false "testnet" "sepolia" "eth" = true.
Proof.
  split; [reflexivity | split; [reflexivity|]].
  split; [|vm_compute; reflexivity].
  exact (compareNetworks_case_insensitive Sample.NETWORK_ALIASES false
           "TestNet" "SEPOLIA" "eth" eq_refl eq_refl).
Defined.

Lemma compareNetworks_mainnet_isolated_witness :
  "MainNet" <> ""
  /\ In (sample_getNetworkName "btc" (toLowerCase "MainNet")) ["mainnet"; "livenet"]
  /\ (sample_compareNetworks true "MainNet" "regtest" "btc" = true
      <-> "regtest" <> ""
          /\ sample_getNetworkName "btc" (toLowerCase "regtest")
             = sample_getNetworkName "btc" (toLowerCase "MainNet")).
Proof.
  assert (H1 : "MainNet" <> "") by discriminate.
  assert (H2 : In (sample_getNetworkName "btc" (toLowerCase "MainNet")) ["mainnet"; "livenet"])
    by (vm_compute; auto).
  split; [exact H1 | split; [exact H2|]].
  exact (compareNetworks_mainnet_isolated Sample.NETWORK_ALIASES true
           "MainNet" "regtest" "btc" H1 H2).
Defined.

(** Without an alias that joins them, "mainnet" and "livenet" are not
    compatible, although both are of type mainnet. *)
Example compareNetworks_mainnet_livenet :
  sample_compareNetworks true "mainnet" "livenet" "eth" = false
  /\ sample_compareNetworks true "mainnet" "livenet" "btc" = true.
Proof. split; vm_compute; reflexivity. Qed.

Lemma getGenericName_getNetworkName_witness :
  sample_getNetworkName "eth" "testnet" = "sepolia"
  /\ sample_getGenericName (sample_getNetworkName "eth" "testnet") = "testnet".
Proof.
  apply (getGenericName_getNetworkName Sample.NETWORK_ALIASES Sample.NETWORK_CHAINS
           "eth" "sepolia" {[ "testnet" := "sepolia" ]}).
  - simpl. auto.
  - simpl. intros [H | [H | []]]; discriminate.
  - vm_compute. reflexivity.
  - vm_compute. reflexivity.
  - discriminate.
  - discriminate.
Defined.

Lemma getGenericName_keeps_type_witness :
  getNetworkType (Some (sample_getGenericName "testnet3")) = getNetworkType (Some "testnet3").
Proof.
  apply (getGenericName_keeps_type Sample.NETWORK_ALIASES Sample.NETWORK_CHAINS "testnet3").
  intros key aliases [[_ ->] | [_ ->]]%Sample_aliases_lookup;
    split; vm_compute; discriminate.
Defined.

Example getGenericName_samples :
  List.map sample_getGenericName ["mainnet"; "livenet"; "testnet3"; "sepolia"; "regtest"; "TESTNET3"]
  = ["livenet"; "livenet"; "testnet"; "testnet"; "regtest"; "TESTNET3"].
Proof. vm_compute. reflexivity. Qed.

(** * Properties of the other [Utils] functions *)

(** ** [getMissingFields], [castToBool], [checkValueInCollection] *)

Lemma isObject_truthy (obj : jsany) :
  truthyA (Utils.isObject obj) = true <-> exists props, obj = AObj props.
Proof.
  unfold Utils.isObject.
  destruct obj as [| |[]|s|items|props]; simpl;
    try (destruct (String.eqb s "") eqn:E; simpl; rewrite ?E; simpl);
    split; intros H; try discriminate; try (destruct H; discriminate); eauto.
Qed.

Lemma filterMissing_Ok (props : gmap string string) (args : list string) :
  props !! "hasOwnProperty" = None ->
  Utils.filterMissing props args
  = Ok (List.filter (fun arg => negb (bool_decide (is_Some (props !! arg)))) args).
Proof.
  intros Hown. induction args as [|a args IH]; [reflexivity|].
  cbn [Utils.filterMissing List.filter]. unfold Utils.hasOwnProperty.
  rewrite Hown, IH. unfold mbind, result_bind.
  now destruct (negb _).
Qed.

Lemma filterMissing_Throw (props : gmap string string) (args : list string) :
  is_Some (props !! "hasOwnProperty") ->
  args <> [] ->
  Utils.filterMissing props args = Throw TypeError.
Proof.
  intros [v Hown] Hne. destruct args as [|a args]; [congruence|].
  cbn [Utils.filterMissing]. unfold Utils.hasOwnProperty. now rewrite Hown.
Qed.

Lemma filter_all_owned (m : gmap string string) (l : list string) :
  (forall x, In x l -> is_Some (m !! x)) ->
  List.filter (fun arg => negb (bool_decide (is_Some (m !! arg)))) l = [].
Proof.
  intros Hall. induction l as [|a l IH]; [reflexivity|].
  simpl. rewrite (bool_decide_eq_true_2 _ (Hall a (or_introl eq_refl))). simpl.
  apply IH. intros x Hx. apply Hall. now right.
Qed.

Lemma getMissingFields_filter (props : gmap string string) (args : list string) :
  props !! "hasOwnProperty" = None ->
  Utils.getMissingFields (AObj props) (Some args)
  = Ok (List.filter (fun arg => negb (bool_decide (is_Some (props !! arg)))) args).
Proof. intros Hown. now apply filterMissing_Ok. Qed.

(** X17. On a plain object that has no property of its own named
    hasOwnProperty, [getMissingFields] returns exactly the requested fields
    the object does not own, in the order requested, and none exactly when
    it owns them all; on a plain object that has such a property, and a
    request that is not empty, the call of that property throws a
    [TypeError]; on anything else (absent values, text, booleans, arrays)
    every requested field is returned. *)
Theorem getMissingFields_spec (obj : jsany) (args : list string) :
  (forall props, obj = AObj props -> props !! "hasOwnProperty" = None ->
     exists missing,
       Utils.getMissingFields obj (Some args) = Ok missing
       /\ (forall x, In x missing <-> In x args /\ props !! x = None)
       /\ (missing = [] <-> forall x, In x args -> is_Some (props !! x))
       /\ sublist missing args)
  /\ (forall props, obj = AObj props -> is_Some (props !! "hasOwnProperty") ->
       args <> [] ->
       Utils.getMissingFields obj (Some args) = Throw TypeError)
  /\ ((forall props, obj <> AObj props) ->
      Utils.getMissingFields obj (Some args) = Ok args)
  /\ Utils.getMissingFields obj None = Ok [].
Proof.
  split; [|split; [|split]].
  - intros props -> Hown.
    exists (List.filter (fun arg => negb (bool_decide (is_Some (props !! arg)))) args).
    split; [now apply getMissingFields_filter|]. split; [|split].
    + intros x. rewrite List.filter_In, negb_true_iff, bool_decide_eq_false.
      rewrite <- eq_None_not_Some. reflexivity.
    + split.
      * intros Hnil x Hx. destruct (props !! x) eqn:Hl; [eauto|].
        assert (Hin : In x (List.filter
                  (fun arg => negb (bool_decide (is_Some (props !! arg)))) args)).
        { apply List.filter_In. split; [assumption|].
          rewrite negb_true_iff, bool_decide_eq_false, <- eq_None_not_Some. assumption. }
        rewrite Hnil in Hin. destruct Hin.
      * apply filter_all_owned.
    + clear Hown. induction args as [|a args IH]; simpl; [constructor|].
      destruct (negb _); now constructor.
  - intros props -> Hown Hne. now apply filterMissing_Throw.
  - intros Hno. unfold Utils.getMissingFields.
    destruct (truthyA (Utils.isObject obj)) eqn:Ht; [|reflexivity].
    apply isObject_truthy in Ht as [props ->]. now destruct (Hno props).
  - unfold Utils.getMissingFields. destruct (negb _); [reflexivity|].
    now destruct obj.
Qed.

(** X18. Setting every field that [getMissingFields] returns leaves none
    missing: the report is complete. The request names neither
    hasOwnProperty, which once set breaks the next call, nor __proto__,
    which an assignment does not make a property of the object. *)
Theorem getMissingFields_complete (props : gmap string string) (args missing : list string)
        (v : string) :
  ~ In "hasOwnProperty" args ->
  ~ In "__proto__" args ->
  Utils.getMissingFields (AObj props) (Some args) = Ok missing ->
  Utils.getMissingFields
    (AObj (fold_right (fun k m => <[k := v]> m) props missing))
    (Some args)
  = Ok [].
Proof.
  intros Hnot _ Hfirst.
  destruct args as [|a0 args0] eqn:Hargs; [reflexivity|]. rewrite <- Hargs in *.
  assert (Hown : props !! "hasOwnProperty" = None).
  { destruct (props !! "hasOwnProperty") as [w|] eqn:Hw; [|reflexivity].
    assert (Hne : args <> []) by (rewrite Hargs; discriminate).
    change (Utils.filterMissing props args = Ok missing) in Hfirst.
    rewrite (filterMissing_Throw props args (ex_intro _ w Hw) Hne) in Hfirst.
    discriminate. }
  clear Hargs a0 args0.
  rewrite (getMissingFields_filter _ _ Hown) in Hfirst.
  assert (Hmissing : missing
            = List.filter (fun arg => negb (bool_decide (is_Some (props !! arg)))) args)
    by congruence.
  clear Hfirst.
  assert (Hsub : forall x, In x missing -> In x args).
  { intros x. rewrite Hmissing, List.filter_In. tauto. }
  assert (Hown' : fold_right (fun k m => <[k := v]> m) props missing
                    !! "hasOwnProperty" = None).
  { clear Hmissing. induction missing as [|k missing IH]; [exact Hown|].
    simpl. rewrite lookup_insert_ne.
    - apply IH. intros x Hx. apply Hsub. now right.
    - intros ->. apply Hnot, Hsub. now left. }
  rewrite (getMissingFields_filter _ _ Hown'). f_equal.
  apply filter_all_owned. intros x Hx.
  assert (Hcases : is_Some (props !! x) \/ In x missing).
  { destruct (props !! x) eqn:Hl; [left; eauto | right].
    rewrite Hmissing. apply List.filter_In. split; [assumption|].
    now rewrite Hl. }
  clear Hx Hmissing Hsub Hown'. induction missing as [|k missing IH]; simpl.
  - destruct Hcases as [H | []]. assumption.
  - destruct (decide (k = x)) as [->|Hne].
    + rewrite lookup_insert_eq. eauto.
    + rewrite lookup_insert_ne by assumption. apply IH.
      destruct Hcases as [H | [H | H]]; [now left | contradiction | now right].
Qed.

Lemma lowerChar_inv (c d : ascii) :
  In d ["t"; "r"; "u"; "e"]%char ->
  lowerChar c = d -> c = d \/ c = ascii_of_N (N_of_ascii d - 32).
Proof.
  intros Hd <-.
  destruct c as [[] [] [] [] [] [] [] []]; simpl in Hd |- *;
    try (left; reflexivity); try (right; reflexivity);
    exfalso; decompose [or] Hd; discriminate.
Qed.

(** X19. [castToBool] is the boolean itself on a boolean, [false] on
    [undefined] and [null], and on text [true] exactly for "1" and for the
    sixteen spellings of "true" in upper and lower case: no other text,
    padded, numeric or empty, is taken for true. *)
Theorem castToBool_spec :
  (forall b, Utils.castToBool (ABool b) = b)
  /\ Utils.castToBool AUndefined = false
  /\ Utils.castToBool ANull = false
  /\ (forall s, Utils.castToBool (AStr s) = true
        <-> s = "1"
            \/ exists t r u e : ascii,
                 s = String t (String r (String u (String e EmptyString)))
                 /\ In t ["t"; "T"]%char /\ In r ["r"; "R"]%char
                 /\ In u ["u"; "U"]%char /\ In e ["e"; "E"]%char).
Proof.
  split; [intros []; reflexivity | split; [reflexivity | split; [reflexivity|]]].
  intros s. unfold Utils.castToBool. simpl.
  destruct (String.eqb_spec (toLowerCase s) "true") as [Ht|Ht]; simpl.
  - split; [intros _; right | reflexivity].
    destruct s as [|t [|r [|u [|e [|]]]]]; try discriminate.
    injection Ht as Ht Hr Hu He.
    exists t, r, u, e. split; [reflexivity|].
    apply lowerChar_inv in Ht, Hr, Hu, He; simpl; auto 6.
    simpl. destruct Ht as [-> | ->], Hr as [-> | ->], Hu as [-> | ->], He as [-> | ->];
      simpl; auto 10.
  - destruct (String.eqb_spec s "1") as [->|H1].
    + split; auto.
    + split; [discriminate|].
      intros [-> | (t & r & u & e & -> & Ht' & Hr & Hu & He)]; [contradiction|].
      exfalso. apply Ht. simpl in Ht', Hr, Hu, He.
      destruct Ht' as [<- | [<- | []]], Hr as [<- | [<- | []]],
               Hu as [<- | [<- | []]], He as [<- | [<- | []]]; reflexivity.
Qed.

(** X20. [checkValueInCollection] is [true] exactly when the value is a
    text that some key of the collection maps to; a value that is not text
    is never found. *)
Theorem checkValueInCollection_spec (value : jsany) (collection : gmap string string) :
  Utils.checkValueInCollection value collection = true
  <-> exists s k, value = AStr s /\ collection !! k = Some s.
Proof.
  destruct value as [| |b|s|items|props]; simpl;
    try (split; [discriminate | intros (? & ? & [=] & _)]).
  rewrite List.existsb_exists. split.
  - intros (x & Hin & ->%String.eqb_eq).
    apply List.in_map_iff in Hin as ([k v] & <- & Hkv).
    apply list_elem_of_In, elem_of_map_to_list in Hkv. now exists v, k.
  - intros (v & k & [= ->] & Hk). exists v. split; [|apply String.eqb_refl].
    apply List.in_map_iff. exists (k, v). split; [reflexivity|].
    now apply list_elem_of_In, elem_of_map_to_list.
Qed.

(** ** [split], [parseVersion] and [getIpFromReq] *)

Lemma split_not_nil (sep : ascii) (s : string) : split sep s <> [].
Proof.
  destruct s as [|c rest]; simpl; [discriminate|].
  destruct (Ascii.eqb c sep); [discriminate|].
  destruct (split sep rest); discriminate.
Qed.

Lemma split_free (sep : ascii) (s : string) :
  occurrences sep s = 0 -> split sep s = [s].
Proof.
  induction s as [|c rest IH]; simpl; [reflexivity|].
  destruct (Ascii.eqb c sep); [discriminate|].
  simpl. intros H. now rewrite (IH H).
Qed.

Lemma split_app (sep : ascii) (a b : string) :
  occurrences sep a = 0 ->
  split sep (String.append a (String sep b)) = a :: split sep b.
Proof.
  induction a as [|c a IH]; intros H.
  - change (String.append "" (String sep b)) with (String sep b).
    simpl. now rewrite Ascii.eqb_refl.
  - rewrite append_String. simpl in H |- *.
    destruct (Ascii.eqb c sep); [discriminate|].
    simpl in H. now rewrite (IH H).
Qed.

Lemma split_length (sep : ascii) (s : string) :
  List.length (split sep s) = S (occurrences sep s).
Proof.
  induction s as [|c rest IH]; simpl; [reflexivity|].
  destruct (Ascii.eqb c sep); simpl; [now rewrite IH|].
  destruct (split sep rest) as [|h t] eqn:E; [now destruct (split_not_nil sep rest)|].
  simpl in *. assumption.
Qed.

(** The first item of a split: the text up to the first separator. *)
Lemma split_hd (sep : ascii) (s : string) :
  occurrences sep (hd "" (split sep s)) = 0
  /\ exists rest,
       s = String.append (hd "" (split sep s)) rest
       /\ (rest = "" \/ exists t, rest = String sep t).
Proof.
  induction s as [|c s (IHfree & rest & IHs & IHrest)]; simpl.
  - split; [reflexivity|]. exists "". split; [reflexivity | now left].
  - destruct (Ascii.eqb_spec c sep) as [->|Hne]; simpl.
    + split; [reflexivity|]. exists (String sep s). split; [reflexivity | right; eauto].
    + destruct (split sep s) as [|h t] eqn:E; [now destruct (split_not_nil sep s)|].
      simpl in *. split.
      * apply Ascii.eqb_neq in Hne. now rewrite Hne.
      * exists rest. split; [|assumption]. rewrite append_String. now f_equal.
Qed.

Section ParsingFacts.

Variable Number : Type.
Variable parseInt : string -> Number.

#[local] Abbreviation parseVersion := (Utils.parseVersion Number parseInt).
#[local] Abbreviation numberAt := (Utils.numberAt Number parseInt).

(** X21. A version with exactly one dash is read as agent and numbers: the
    agent is the text before the dash, except that "bws" is reported as
    "bwc", so that "bws-n" and "bwc-n" parse alike; the numbers are the
    first three dot-separated items after the dash. *)
Theorem parseVersion_one_dash (name rest : string) :
  occurrences "-" name = 0 ->
  occurrences "-" rest = 0 ->
  parseVersion (String.append name (String "-" rest))
  = Some (mkParsedVersion
            (if includes ["bwc"; "bws"] (Some name) then "bwc" else name)
            (numberAt (split "." rest) 0)
            (numberAt (split "." rest) 1)
            (numberAt (split "." rest) 2))
  /\ parseVersion (String.append "bws" (String "-" rest))
     = parseVersion (String.append "bwc" (String "-" rest)).
Proof.
  intros Hname Hrest.
  assert (Hgen : forall n, occurrences "-" n = 0 ->
            parseVersion (String.append n (String "-" rest))
            = Some (mkParsedVersion
                      (if includes ["bwc"; "bws"] (Some n) then "bwc" else n)
                      (numberAt (split "." rest) 0)
                      (numberAt (split "." rest) 1)
                      (numberAt (split "." rest) 2))).
  { intros n Hn. unfold Utils.parseVersion.
    assert (Hne : String.eqb (String.append n (String "-" rest)) "" = false)
      by now destruct n.
    rewrite Hne, (split_app "-" n rest Hn), (split_free "-" rest Hrest).
    reflexivity. }
  split; [now apply Hgen|].
  now rewrite !Hgen.
Qed.

(** X22. A non-empty version with no dash, or with more than one, is not
    taken apart: the whole text is the agent and no number is set (so
    "bwc-1.2.3-beta" has agent "bwc-1.2.3-beta"). The empty version gives
    [null]. *)
Theorem parseVersion_other_dashes (version : string) :
  (version <> "" ->
   occurrences "-" version <> 1 ->
   parseVersion version = Some (mkParsedVersion version Unset Unset Unset))
  /\ parseVersion "" = None.
Proof.
  split; [|reflexivity].
  intros Hne Hocc. unfold Utils.parseVersion.
  rewrite (eqb_empty_false _ Hne), split_length.
  destruct (Nat.eqb_spec (S (occurrences "-" version)) 2) as [E|_]; [lia | reflexivity].
Qed.

End ParsingFacts.

(** X23. When the request carries a non-empty [x-forwarded-for] header,
    [getIpFromReq] returns the text of that header up to its first comma,
    whatever the other sources hold; failing that header, the same of a
    non-empty [x-real-ip]. The result then holds no comma. *)
Theorem getIpFromReq_headers (req : Request) (h : gmap string string) (v : string) :
  headers req = Some h ->
  v <> "" ->
  h !! "x-forwarded-for" = Some v
  \/ (nonEmpty (h !! "x-forwarded-for") = None /\ h !! "x-real-ip" = Some v) ->
  occurrences "," (Utils.getIpFromReq req) = 0
  /\ exists rest,
       v = String.append (Utils.getIpFromReq req) rest
       /\ (rest = "" \/ exists t, rest = String "," t).
Proof.
  intros Hh Hv Hcase.
  assert (E : Utils.getIpFromReq req = Utils.firstItem v).
  { unfold Utils.getIpFromReq. rewrite Hh.
    destruct Hcase as [Hx | [Hx Hr]]; rewrite Hx; [|rewrite Hr]; simpl;
      now rewrite (eqb_empty_false _ Hv). }
  rewrite E. apply split_hd.
Qed.

(** Without usable headers the fallbacks are [req.ip], then the
    connection's remote address, then the empty string; an empty header
    value counts as no header. *)
Lemma getIpFromReq_fallback (req : Request) :
  (forall h, headers req = Some h ->
             nonEmpty (h !! "x-forwarded-for") = None
             /\ nonEmpty (h !! "x-real-ip") = None) ->
  Utils.getIpFromReq req
  = match nonEmpty (ip req), connection req with
    | Some address, _ => address
    | None, Some c => default "" (nonEmpty (remoteAddress c))
    | None, None => ""
    end.
Proof.
  intros Hh. unfold Utils.getIpFromReq.
  destruct (headers req) as [h|]; [destruct (Hh h eq_refl) as [-> ->]|];
    destruct (nonEmpty (ip req)); try reflexivity;
    destruct (connection req) as [c|]; try reflexivity;
    now destruct (nonEmpty (remoteAddress c)).
Qed.

(** ** [indexOf] and [parseAppVersion] *)

Lemma prefix_spec (a s : string) :
  String.prefix a s = true <-> exists t, s = String.append a t.
Proof.
  revert s. induction a as [|c a IH]; intros s.
  - split; [intros _; now exists s | intros _; now destruct s].
  - destruct s as [|d s]; simpl.
    + split; [discriminate | intros [t [=]]].
    + destruct (Ascii.ascii_dec c d) as [->|Hne].
      * rewrite IH. split; intros [t Ht]; exists t.
        -- rewrite append_String. now f_equal.
        -- rewrite append_String in Ht. now injection Ht.
      * split; [discriminate|]. intros [t Ht]. rewrite append_String in Ht.
        injection Ht as Hd _. congruence.
Qed.

(** Whether [needle] occurs in [s]. *)
#[local] Abbreviation occursIn needle s :=
  (exists before after, s = String.append before (String.append needle after)).

Lemma indexOf_nil (needle : string) :
  indexOf needle "" = if String.prefix needle "" then Some 0 else None.
Proof. reflexivity. Qed.

Lemma indexOf_cons (needle : string) (c : ascii) (s : string) :
  indexOf needle (String c s)
  = if String.prefix needle (String c s) then Some 0
    else option_map S (indexOf needle s).
Proof. reflexivity. Qed.

Lemma indexOf_Some (needle s : string) (i : nat) :
  indexOf needle s = Some i -> occursIn needle s.
Proof.
  revert i. induction s as [|c s IH]; intros i.
  - rewrite indexOf_nil. destruct (String.prefix needle "") eqn:Hp; [|discriminate].
    intros _. apply prefix_spec in Hp as [t Ht]. now exists "", t.
  - rewrite indexOf_cons. destruct (String.prefix needle (String c s)) eqn:Hp.
    + intros _. apply prefix_spec in Hp as [t Ht]. now exists "", t.
    + destruct (indexOf needle s) as [j|]; [|discriminate].
      intros _. destruct (IH j eq_refl) as (before & after & ->).
      exists (String c before), after. now rewrite append_String.
Qed.

Lemma indexOf_None (needle s : string) :
  indexOf needle s = None -> ~ occursIn needle s.
Proof.
  induction s as [|c s IH].
  - rewrite indexOf_nil. destruct (String.prefix needle "") eqn:Hp; [discriminate|].
    intros _ (before & after & H).
    destruct before; [|discriminate].
    assert (String.prefix needle "" = true) by (apply prefix_spec; now exists after).
    congruence.
  - rewrite indexOf_cons. destruct (String.prefix needle (String c s)) eqn:Hp; [discriminate|].
    destruct (indexOf needle s) as [j|]; [discriminate|].
    intros _ (before & after & H). destruct before as [|d before].
    + assert (String.prefix needle (String c s) = true)
        by (apply prefix_spec; now exists after).
      congruence.
    + rewrite append_String in H. injection H as _ H.
      apply IH; [reflexivity | now exists before, after].
Qed.

Lemma indexOf_occurs (needle s : string) :
  occursIn needle s <-> exists i, indexOf needle s = Some i.
Proof.
  split.
  - intros H. destruct (indexOf needle s) as [i|] eqn:E; [eauto|].
    now destruct (indexOf_None _ _ E).
  - intros [i Hi]. now apply indexOf_Some in Hi.
Qed.

Section AppVersionFacts.

Variable Number : Type.
Variable parseInt : string -> Number.

#[local] Abbreviation parseAppVersion := (Utils.parseAppVersion Number parseInt).

(** X24. [parseAppVersion] names the application from the lowercased
    agent alone: "copay" when that word occurs anywhere in it, "bitpay"
    when "bitpay" occurs and "copay" does not, "other" (with no number
    set) when neither occurs. It does not see the letter case of the agent,
    and gives [null] only for the empty agent. *)
Theorem parseAppVersion_app (agent : string) :
  agent <> "" ->
  exists v,
    parseAppVersion agent = Some v
    /\ parseAppVersion (toLowerCase agent) = Some v
    /\ (app v = "copay" <-> occursIn "copay" (toLowerCase agent))
    /\ (app v = "bitpay"
        <-> occursIn "bitpay" (toLowerCase agent) /\ ~ occursIn "copay" (toLowerCase agent))
    /\ (app v = "other"
        <-> ~ occursIn "bitpay" (toLowerCase agent) /\ ~ occursIn "copay" (toLowerCase agent))
    /\ (app v = "other" -> v = mkParsedApp "other" Unset Unset Unset).
Proof.
  intros Hne. unfold Utils.parseAppVersion.
  rewrite toLowerCase_eqb_empty, toLowerCase_idempotent, (eqb_empty_false _ Hne).
  destruct (indexOf "copay" (toLowerCase agent)) as [w|] eqn:Hc.
  - eexists. split; [reflexivity | split; [reflexivity|]]. simpl.
    pose proof (indexOf_Some _ _ _ Hc) as Hoc.
    repeat split; try discriminate; try tauto.
  - pose proof (indexOf_None _ _ Hc) as Hnc.
    destruct (indexOf "bitpay" (toLowerCase agent)) as [w|] eqn:Hb.
    + eexists. split; [reflexivity | split; [reflexivity|]]. simpl.
      pose proof (indexOf_Some _ _ _ Hb) as Hob.
      repeat split; try discriminate; try tauto.
    + pose proof (indexOf_None _ _ Hb) as Hnb.
      eexists. split; [reflexivity | split; [reflexivity|]]. simpl.
      repeat split; try discriminate; try tauto.
Qed.

End AppVersionFacts.

(** ** [sortAsc] and [sortDesc] *)

Section SortFacts.

Variable A : Type.
Variable key : A -> Z.

#[local] Abbreviation insertSorted := (Utils.insertSorted A key).
#[local] Abbreviation sortAsc := (Utils.sortAsc A key).
#[local] Abbreviation sortDesc := (Utils.sortDesc A key).

#[local] Abbreviation ascending := (StronglySorted (fun a b => (key a <= key b)%Z)).
#[local] Abbreviation descending := (StronglySorted (fun a b => (key b <= key a)%Z)).
#[local] Abbreviation withKey k := (List.filter (fun a => (key a =? k)%Z)).

Lemma insertSorted_perm (x : A) (l : list A) : Permutation (x :: l) (insertSorted x l).
Proof.
  induction l as [|y l IH]; simpl; [reflexivity|].
  destruct (key x <=? key y)%Z; [reflexivity|].
  rewrite perm_swap. now constructor.
Qed.

Lemma insertSorted_sorted (x : A) (l : list A) :
  ascending l -> ascending (insertSorted x l).
Proof.
  induction l as [|y l IH]; intros Hs; simpl.
  - repeat constructor.
  - inversion Hs as [|? ? Hl Hy]; subst.
    destruct (Z.leb_spec (key x) (key y)) as [Hle|Hgt].
    + constructor; [assumption|]. constructor; [assumption|].
      eapply List.Forall_impl; [|exact Hy]. simpl. intros a Ha. lia.
    + constructor; [now apply IH|].
      rewrite <- (insertSorted_perm x l). constructor; [lia | assumption].
Qed.

Lemma insertSorted_withKey (x : A) (l : list A) (k : Z) :
  ascending l ->
  withKey k (insertSorted x l) = withKey k (x :: l).
Proof.
  induction l as [|y l IH]; intros Hs; [reflexivity|].
  inversion Hs as [|? ? Hl Hy]; subst.
  simpl. destruct (Z.leb_spec (key x) (key y)) as [Hle|Hgt]; [reflexivity|].
  simpl. rewrite (IH Hl). simpl.
  destruct (Z.eqb_spec (key y) k) as [Ey|Ny]; [|reflexivity].
  destruct (Z.eqb_spec (key x) k) as [Ex|Nx]; [lia | reflexivity].
Qed.

Lemma sortAsc_sorted (arr : list A) : ascending (sortAsc arr).
Proof.
  induction arr as [|x arr IH]; simpl; [constructor | now apply insertSorted_sorted].
Qed.

Lemma sortAsc_perm (arr : list A) : Permutation arr (sortAsc arr).
Proof.
  induction arr as [|x arr IH]; simpl; [reflexivity|].
  rewrite <- insertSorted_perm. now constructor.
Qed.

Lemma sortAsc_stable (arr : list A) (k : Z) : withKey k (sortAsc arr) = withKey k arr.
Proof.
  induction arr as [|x arr IH]; [reflexivity|].
  simpl. change (fold_right insertSorted [] arr) with (sortAsc arr).
  rewrite insertSorted_withKey by apply sortAsc_sorted.
  simpl. now rewrite IH.
Qed.

(** X25. [sortAsc] rearranges the array without adding or losing an
    element, in ascending order of the keys, and stably: elements with the
    same key keep the order they had. It leaves an array that is already
    ascending as it is. *)
Theorem sortAsc_spec (arr : list A) :
  Permutation arr (sortAsc arr)
  /\ ascending (sortAsc arr)
  /\ (forall k, withKey k (sortAsc arr) = withKey k arr)
  /\ sortAsc (sortAsc arr) = sortAsc arr.
Proof.
  assert (Hfix : forall l, ascending l -> sortAsc l = l).
  { induction l as [|x l IH]; intros Hs; [reflexivity|].
    inversion Hs as [|? ? Hl Hx]; subst. simpl.
    change (fold_right insertSorted [] l) with (sortAsc l). rewrite (IH Hl).
    destruct l as [|y l]; [reflexivity|]. simpl.
    inversion Hx as [|? ? Hxy _]; subst.
    now destruct (Z.leb_spec (key x) (key y)); [|lia]. }
  split; [apply sortAsc_perm | split; [apply sortAsc_sorted | split]].
  - intros k. apply sortAsc_stable.
  - apply Hfix, sortAsc_sorted.
Qed.

Lemma descending_rev (l : list A) : ascending l -> descending (rev l).
Proof.
  induction l as [|x l IH]; intros Hs; simpl; [constructor|].
  inversion Hs as [|? ? Hl Hx]; subst.
  specialize (IH Hl).
  assert (Happ : forall l1, descending l1 -> Forall (fun a => (key x <= key a)%Z) l1 ->
                            descending (l1 ++ [x])).
  { induction l1 as [|a l1 IH1]; intros Hd Hf; simpl; [repeat constructor|].
    inversion Hd; subst. inversion Hf; subst.
    constructor; [now apply IH1|].
    apply Forall_app. split; [assumption | now repeat constructor]. }
  apply Happ; [assumption|].
  apply List.Forall_forall. intros a Ha. apply List.in_rev in Ha.
  rewrite List.Forall_forall in Hx. now apply Hx.
Qed.

(** X26. [sortDesc] rearranges the array in descending order of the keys
    without adding or losing an element; being the reversal of the stable
    ascending sort, it returns elements with the same key in the reverse of
    the order they had. *)
Theorem sortDesc_spec (arr : list A) :
  Permutation arr (sortDesc arr)
  /\ descending (sortDesc arr)
  /\ (forall k, withKey k (sortDesc arr) = rev (withKey k arr)).
Proof.
  unfold Utils.sortDesc. split; [|split].
  - rewrite <- Permutation_rev. apply sortAsc_perm.
  - apply descending_rev, sortAsc_sorted.
  - intros k.
    assert (Hrev : forall l : list A, withKey k (rev l) = rev (withKey k l)).
    { induction l as [|x l IH]; [reflexivity|].
      simpl. rewrite List.filter_app, IH. simpl.
      destruct (key x =? k)%Z; [reflexivity | now rewrite List.app_nil_r]. }
    rewrite Hrev. f_equal. apply sortAsc_stable.
Qed.

End SortFacts.

(** ** The other functions at concrete inputs *)

Lemma getMissingFields_spec_witness :
  ({[ "name" := "w" ]} : gmap string string) !! "hasOwnProperty" = None
  /\ Utils.getMissingFields (AObj {[ "name" := "w" ]}) (Some ["name"; "pubKey"])
     = Ok ["pubKey"]
  /\ exists missing,
       Utils.getMissingFields (AObj {[ "name" := "w" ]}) (Some ["name"; "pubKey"])
       = Ok missing
       /\ (forall x, In x missing
                     <-> In x ["name"; "pubKey"]
                         /\ ({[ "name" := "w" ]} : gmap string string) !! x = None)
       /\ (missing = []
           <-> forall x, In x ["name"; "pubKey"]
                         -> is_Some (({[ "name" := "w" ]} : gmap string string) !! x))
       /\ sublist missing ["name"; "pubKey"].
Proof.
  split; [vm_compute; reflexivity | split; [vm_compute; reflexivity|]].
  apply (proj1 (getMissingFields_spec (AObj {[ "name" := "w" ]}) ["name"; "pubKey"])
           {[ "name" := "w" ]} eq_refl).
  vm_compute. reflexivity.
Defined.

Lemma getMissingFields_complete_witness :
  ~ In "hasOwnProperty" ["name"; "pubKey"; "path"]
  /\ ~ In "__proto__" ["name"; "pubKey"; "path"]
  /\ Utils.getMissingFields (AObj {[ "name" := "w" ]}) (Some ["name"; "pubKey"; "path"])
     = Ok ["pubKey"; "path"]
  /\ Utils.getMissingFields
       (AObj (fold_right (fun k m => <[k := "x"]> m) {[ "name" := "w" ]} ["pubKey"; "path"]))
       (Some ["name"; "pubKey"; "path"])
     = Ok [].
Proof.
  assert (H1 : ~ In "hasOwnProperty" ["name"; "pubKey"; "path"])
    by (intros [H | [H | [H | []]]]; discriminate).
  assert (H2 : ~ In "__proto__" ["name"; "pubKey"; "path"])
    by (intros [H | [H | [H | []]]]; discriminate).
  assert (H3 : Utils.getMissingFields (AObj {[ "name" := "w" ]})
                 (Some ["name"; "pubKey"; "path"])
               = Ok ["pubKey"; "path"])
    by (vm_compute; reflexivity).
  split; [exact H1 | split; [exact H2 | split; [exact H3|]]].
  exact (getMissingFields_complete {[ "name" := "w" ]} ["name"; "pubKey"; "path"]
           ["pubKey"; "path"] "x" H1 H2 H3).
Defined.

Example getMissingFields_samples :
  Utils.getMissingFields (AArr ["name"]) (Some ["name"; "0"]) = Ok ["name"; "0"]
  /\ Utils.getMissingFields ANull (Some ["name"]) = Ok ["name"]
  /\ Utils.getMissingFields (AObj ∅) None = Ok []
  /\ Utils.getMissingFields (AObj {[ "hasOwnProperty" := "x" ]}) (Some ["name"])
     = Throw TypeError
  /\ Utils.getMissingFields (AObj {[ "hasOwnProperty" := "x" ]}) (Some []) = Ok []
  /\ Utils.isObject ANull = ANull
  /\ Utils.isObject (AStr "") = AStr "".
Proof. vm_compute. repeat (split; [reflexivity|]). reflexivity. Qed.

Example castToBool_samples :
  List.map Utils.castToBool
    [AStr "true"; AStr "TRUE"; AStr "tRuE"; AStr "1"; ABool true; AArr ["True"];
     AStr "0"; AStr "01"; AStr " true"; AStr "yes"; AStr ""; ABool false; ANull;
     AArr ["1"; "1"]; AObj ∅]
  = [true; true; true; true; true; true;
     false; false; false; false; false; false; false; false; false].
Proof. reflexivity. Qed.

#[local] Abbreviation sample_parseVersion := (Utils.parseVersion (option N) Sample.parseInt).
#[local] Abbreviation sample_parseAppVersion :=
  (Utils.parseAppVersion (option N) Sample.parseInt).

Lemma parseVersion_one_dash_witness :
  occurrences "-" "bws" = 0
  /\ occurrences "-" "1.2.3" = 0
  /\ sample_parseVersion "bws-1.2.3"
     = Some (mkParsedVersion "bwc" (Value (Some 1%N)) (Value (Some 2%N)) (Value (Some 3%N))).
Proof.
  split; [reflexivity | split; [reflexivity|]].
  exact (proj1 (parseVersion_one_dash (option N) Sample.parseInt "bws" "1.2.3"
                  eq_refl eq_refl)).
Defined.

Lemma parseVersion_other_dashes_witness :
  "bwc-1.2.3-beta" <> ""
  /\ occurrences "-" "bwc-1.2.3-beta" <> 1
  /\ sample_parseVersion "bwc-1.2.3-beta"
     = Some (mkParsedVersion "bwc-1.2.3-beta" Unset Unset Unset).
Proof.
  assert (H1 : "bwc-1.2.3-beta" <> "") by discriminate.
  assert (H2 : occurrences "-" "bwc-1.2.3-beta" <> 1) by (vm_compute; discriminate).
  split; [exact H1 | split; [exact H2|]].
  exact (proj1 (parseVersion_other_dashes (option N) Sample.parseInt "bwc-1.2.3-beta")
           H1 H2).
Defined.

Example parseVersion_samples :
  sample_parseVersion "bwc-2.10" = Some (mkParsedVersion "bwc" (Value (Some 2%N))
                                           (Value (Some 10%N)) Null)
  /\ sample_parseVersion "copay-.7" = Some (mkParsedVersion "copay" Null (Value (Some 7%N)) Null)
  /\ sample_parseVersion "bwc-x.1" = Some (mkParsedVersion "bwc" (Value None)
                                            (Value (Some 1%N)) Null)
  /\ sample_parseVersion "bwc" = Some (mkParsedVersion "bwc" Unset Unset Unset)
  /\ sample_parseVersion "" = None.
Proof. repeat (split; [reflexivity|]). reflexivity. Qed.

Lemma parseAppVersion_app_witness :
  "BitPay-in-Copay/5.3.1" <> ""
  /\ exists v,
       sample_parseAppVersion "BitPay-in-Copay/5.3.1" = Some v /\ app v = "copay".
Proof.
  assert (H : "BitPay-in-Copay/5.3.1" <> "") by discriminate.
  split; [exact H|].
  destruct (parseAppVersion_app (option N) Sample.parseInt "BitPay-in-Copay/5.3.1" H)
    as (v & Hv & _ & Hcopay & _).
  exists v. split; [exact Hv|].
  apply Hcopay. exists "bitpay-in-", "/5.3.1". reflexivity.
Defined.

Example parseAppVersion_samples :
  sample_parseAppVersion "Copay/5.3.1 (iOS)"
  = Some (mkParsedApp "copay" (Value (Some 5%N)) (Value (Some 3%N)) (Value (Some 1%N)))
  /\ sample_parseAppVersion "bitpay v12.4"
     = Some (mkParsedApp "bitpay" (Value (Some 12%N)) (Value (Some 4%N)) Null)
  /\ sample_parseAppVersion "curl/8.0" = Some (mkParsedApp "other" Unset Unset Unset)
  /\ sample_parseAppVersion "" = None.
Proof. repeat (split; [reflexivity|]). reflexivity. Qed.

Lemma getIpFromReq_headers_witness :
  occurrences ","
    (Utils.getIpFromReq
       (mkRequest (Some {[ "x-forwarded-for" := "203.0.113.7, 10.0.0.1" ]})
          (Some "10.0.0.9") None)) = 0
  /\ Utils.getIpFromReq
       (mkRequest (Some {[ "x-forwarded-for" := "203.0.113.7, 10.0.0.1" ]})
          (Some "10.0.0.9") None) = "203.0.113.7".
Proof.
  split; [|vm_compute; reflexivity].
  apply (getIpFromReq_headers
           (mkRequest (Some {[ "x-forwarded-for" := "203.0.113.7, 10.0.0.1" ]})
              (Some "10.0.0.9") None)
           {[ "x-forwarded-for" := "203.0.113.7, 10.0.0.1" ]}
           "203.0.113.7, 10.0.0.1").
  - reflexivity.
  - discriminate.
  - left. vm_compute. reflexivity.
Defined.

(** A header that opens with a comma gives the empty address, and the
    later sources are not consulted. *)
Example getIpFromReq_samples :
  Utils.getIpFromReq (mkRequest (Some {[ "x-forwarded-for" := ",10.0.0.1" ]})
                        (Some "10.0.0.9") None) = ""
  /\ Utils.getIpFromReq (mkRequest (Some {[ "x-forwarded-for" := ""; "x-real-ip" := "10.0.0.2" ]})
                           (Some "10.0.0.9") None) = "10.0.0.2"
  /\ Utils.getIpFromReq (mkRequest (Some ∅) None (Some (mkConnection (Some "10.0.0.3"))))
     = "10.0.0.3"
  /\ Utils.getIpFromReq (mkRequest None None None) = "".
Proof. repeat (split; [vm_compute; reflexivity|]). reflexivity. Qed.

Example sort_samples :
  Utils.sortAsc (Z * string) fst [(3, "a"); (1, "b"); (3, "c"); (2, "d"); (1, "e")]%Z
  = [(1, "b"); (1, "e"); (2, "d"); (3, "a"); (3, "c")]%Z
  /\ Utils.sortDesc (Z * string) fst [(3, "a"); (1, "b"); (3, "c"); (2, "d"); (1, "e")]%Z
     = [(3, "c"); (3, "a"); (2, "d"); (1, "e"); (1, "b")]%Z.
Proof. split; reflexivity. Qed.

(** * Properties of the wallet routes *)

Section RouteFacts.

Import WalletRoutes.

Variable Wallet : Type.
Variable Line : Type.
Variable lineAddress : Line -> jsany.
Variable validateAddress : string -> string -> jsany -> result bool.
Variable verifyRequestSignature : string -> jsany -> string -> result bool.
Variable stringify : list Line -> string.
Variable bwsKey : jsany.

#[local] Abbreviation createWalletRoute := (WalletRoutes.createWalletRoute Wallet).
#[local] Abbreviation updateWalletRoute :=
  (WalletRoutes.updateWalletRoute Wallet Line lineAddress validateAddress
     verifyRequestSignature stringify bwsKey).
#[local] Abbreviation allValid := (WalletRoutes.allValid validateAddress).
#[local] Abbreviation reprocessMessage := (WalletRoutes.reprocessMessage Line stringify).
#[local] Abbreviation Run := (WalletRoutes.Run Wallet).

Lemma Run_Done_inv (r r' : Reply Wallet) (events : list (Event Wallet)) :
  Run (Done Wallet r) events r' -> events = [] /\ r' = r.
Proof. intros H. inversion H; subst. now split. Qed.

Lemma allValid_true (chain network : string) (addresses : list jsany) :
  allValid chain network addresses = Ok true ->
  Forall (fun a => isTooLong a 255 = false /\ validateAddress chain network a = Ok true)
         addresses.
Proof.
  induction addresses as [|a rest IH]; simpl; [constructor|].
  destruct (isTooLong a 255) eqn:Hlong; [discriminate|].
  destruct (validateAddress chain network a) as [[]|] eqn:Hv; try discriminate.
  intros H. constructor; [now split | now apply IH].
Qed.

(** X27. The create handler first awaits [getWallet] with the public key
    as received; it awaits [createWallet] at most once, after that, and only
    with a name, public key, path and single-address flag that are each
    shorter than 255; it replies 413 only when the wallet was not found and
    one of the four is too long. *)
Theorem createWalletRoute_guard (chain network : string) (b : CreateBody)
        (events : list (Event Wallet)) (reply : Reply Wallet) :
  Run (createWalletRoute chain network b) events reply ->
  let tooLong := isTooLong (name b) 255 || isTooLong (pubKey b) 255
                 || isTooLong (path b) 255 || isTooLong (singleAddress b) 255 in
  (events = [AwaitedGetWallet Wallet chain network (pubKey b)]
   \/ (events = [AwaitedGetWallet Wallet chain network (pubKey b);
                 AwaitedCreateWallet Wallet chain network (singleAddress b) (name b)
                   (pubKey b) (path b)]
       /\ tooLong = false))
  /\ (status reply = 413 ->
      tooLong = true /\ events = [AwaitedGetWallet Wallet chain network (pubKey b)]).
Proof.
  intros H. cbv zeta. unfold WalletRoutes.createWalletRoute in H.
  inversion H as [|? ? ? k answer events' ? Hk| |]; subst. clear H.
  destruct answer as [[w|]|e].
  - apply Run_Done_inv in Hk as [-> ->]. split; [now left | discriminate].
  - destruct (isTooLong (name b) 255 || isTooLong (pubKey b) 255
              || isTooLong (path b) 255 || isTooLong (singleAddress b) 255) eqn:Hlong.
    + apply Run_Done_inv in Hk as [-> ->]. split; [now left | now split].
    + inversion Hk as [| |? ? ? ? ? ? k' answer' events'' ? Hk'|]; subst. clear Hk.
      destruct answer' as [w|e]; apply Run_Done_inv in Hk' as [-> ->];
        (split; [right; now split | discriminate]).
  - apply Run_Done_inv in Hk as [-> ->]. split; [now left | discriminate].
Qed.

(** X28. The update handler awaits [updateWallet] only with the addresses
    of the lines whose address is truthy, in order, each shorter than 255
    and accepted by [validateAddress]; lines without an address are dropped
    without an error. It asks for a reprocess only when the [x-reprocess]
    header is set and [verifyRequestSignature] accepted it for the message
    "reprocess|/addAddresses<pubKey>|<body>" under the configured key. *)
Theorem updateWalletRoute_guard (chain network pubKey : string) (wallet : Wallet)
        (lines : list Line) (xReprocess : option string)
        (events : list (Event Wallet)) (reply : Reply Wallet) :
  Run (updateWalletRoute chain network pubKey wallet lines xReprocess) events reply ->
  forall c n w addresses reprocess,
    In (AwaitedUpdateWallet Wallet c n w addresses reprocess) events ->
    events = [AwaitedUpdateWallet Wallet chain network wallet addresses reprocess]
    /\ addresses
       = List.map lineAddress (List.filter (fun line => truthyA (lineAddress line)) lines)
    /\ Forall (fun a => truthyA a = true
                        /\ isTooLong a 255 = false
                        /\ validateAddress chain network a = Ok true) addresses
    /\ (if reprocess
        then exists signature,
               nonEmpty xReprocess = Some signature
               /\ verifyRequestSignature (reprocessMessage pubKey lines) bwsKey signature
                  = Ok true
        else nonEmpty xReprocess = None).
Proof.
  intros H c n w addresses reprocess Hin.
  unfold WalletRoutes.updateWalletRoute in H. cbv zeta in H.
  set (addrs := List.map lineAddress
                  (List.filter (fun line => truthyA (lineAddress line)) lines)) in *.
  assert (Htruthy : Forall (fun a => truthyA a = true) addrs).
  { apply List.Forall_forall. intros a Ha.
    apply List.in_map_iff in Ha as (line & <- & Hline).
    now apply List.filter_In in Hline as [_ Hline]. }
  destruct (allValid chain network addrs) as [[]|e] eqn:Hvalid.
  - pose proof (allValid_true _ _ _ Hvalid) as Hall.
    assert (Hgood : Forall (fun a => truthyA a = true /\ isTooLong a 255 = false
                                     /\ validateAddress chain network a = Ok true) addrs).
    { rewrite List.Forall_forall in *. intros a Ha.
      destruct (Hall a Ha). split; [now apply Htruthy | now split]. }
    destruct (nonEmpty xReprocess) as [signature|] eqn:Hx.
    + destruct (verifyRequestSignature _ bwsKey signature) as [[]|e] eqn:Hsig.
      * inversion H as [| | |? ? ? ? ? k answer events' ? Hk]; subst. clear H.
        destruct answer; apply Run_Done_inv in Hk as [-> ->];
          destruct Hin as [[= <- <- <- <- <-] | []];
          (split; [reflexivity | split; [reflexivity | split; [assumption | eauto]]]).
      * apply Run_Done_inv in H as [-> _]. destruct Hin.
      * apply Run_Done_inv in H as [-> _]. destruct Hin.
    + inversion H as [| | |? ? ? ? ? k answer events' ? Hk]; subst. clear H.
      destruct answer; apply Run_Done_inv in Hk as [-> ->];
        destruct Hin as [[= <- <- <- <- <-] | []];
        (split; [reflexivity | split; [reflexivity | split; [assumption | reflexivity]]]).
  - apply Run_Done_inv in H as [-> _]. destruct Hin.
  - apply Run_Done_inv in H as [-> _]. destruct Hin.
Qed.

End RouteFacts.

(** ** The wallet routes at concrete inputs *)

Example isTooLong_samples :
  WalletRoutes.isTooLong (AStr (string_of_list_ascii (repeat "a"%char 254))) 255 = false
  /\ WalletRoutes.isTooLong (AStr (string_of_list_ascii (repeat "a"%char 255))) 255 = true
  /\ WalletRoutes.isTooLong (AStr "") 0 = false
  /\ WalletRoutes.isTooLong (AObj ∅) 16 = false
  /\ WalletRoutes.isTooLong (AObj ∅) 15 = true
  /\ WalletRoutes.isTooLong ANull 0 = false.
Proof. repeat (split; [vm_compute; reflexivity|]). reflexivity. Qed.

(** Two hundred two-octet letters are two hundred code units. *)
Example jsLength_two_octets :
  jsLength (string_of_list_ascii (concat (repeat ["195"; "169"]%char 200))) = 200
  /\ String.length (string_of_list_ascii (concat (repeat ["195"; "169"]%char 200))) = 400.
Proof. split; vm_compute; reflexivity. Qed.

#[local] Abbreviation sample_createWalletRoute := (WalletRoutes.createWalletRoute string).
#[local] Abbreviation sample_updateWalletRoute :=
  (WalletRoutes.updateWalletRoute string string Sample.lineAddress Sample.validateAddress
     Sample.verifyRequestSignature Sample.stringify Sample.bwsKey).

#[local] Abbreviation sample_body :=
  (WalletRoutes.mkCreateBody (AStr "savings") (AStr "02ab") (AStr "m/44'/0'/0'")
     (ABool false)).

Lemma createWalletRoute_guard_witness :
  WalletRoutes.Run string (sample_createWalletRoute "BTC" "mainnet" sample_body)
    [WalletRoutes.AwaitedGetWallet string "BTC" "mainnet" (AStr "02ab");
     WalletRoutes.AwaitedCreateWallet string "BTC" "mainnet" (ABool false) (AStr "savings")
       (AStr "02ab") (AStr "m/44'/0'/0'")]
    (WalletRoutes.mkReply 200 (WalletRoutes.Document "wallet-1"))
  /\ WalletRoutes.isTooLong (AStr "savings") 255
     || WalletRoutes.isTooLong (AStr "02ab") 255
     || WalletRoutes.isTooLong (AStr "m/44'/0'/0'") 255
     || WalletRoutes.isTooLong (ABool false) 255 = false.
Proof.
  assert (H : WalletRoutes.Run string (sample_createWalletRoute "BTC" "mainnet" sample_body)
                [WalletRoutes.AwaitedGetWallet string "BTC" "mainnet" (AStr "02ab");
                 WalletRoutes.AwaitedCreateWallet string "BTC" "mainnet" (ABool false)
                   (AStr "savings") (AStr "02ab") (AStr "m/44'/0'/0'")]
                (WalletRoutes.mkReply 200 (WalletRoutes.Document "wallet-1"))).
  { apply (WalletRoutes.Run_GetWallet string _ _ _ _ (Ok None)).
    apply (WalletRoutes.Run_CreateWallet string _ _ _ _ _ _ _ (Ok "wallet-1")).
    apply WalletRoutes.Run_Done. }
  split; [exact H|].
  destruct (proj1 (createWalletRoute_guard string "BTC" "mainnet" sample_body _ _ H))
    as [Hone | [_ Hshort]]; [discriminate Hone | exact Hshort].
Defined.

Lemma updateWalletRoute_guard_witness :
  WalletRoutes.Run string
    (sample_updateWalletRoute "BTC" "mainnet" "02ab" "wallet-1" ["1abc"; ""; "1def"]
       (Some "signed:reprocess|/addAddresses02ab|1abc,,1def"))
    [WalletRoutes.AwaitedUpdateWallet string "BTC" "mainnet" "wallet-1"
       [AStr "1abc"; AStr "1def"] true]
    (WalletRoutes.mkReply 200 WalletRoutes.Empty)
  /\ Forall (fun a => truthyA a = true
                      /\ WalletRoutes.isTooLong a 255 = false
                      /\ Sample.validateAddress "BTC" "mainnet" a = Ok true)
            [AStr "1abc"; AStr "1def"].
Proof.
  assert (H : WalletRoutes.Run string
                (sample_updateWalletRoute "BTC" "mainnet" "02ab" "wallet-1"
                   ["1abc"; ""; "1def"]
                   (Some "signed:reprocess|/addAddresses02ab|1abc,,1def"))
                [WalletRoutes.AwaitedUpdateWallet string "BTC" "mainnet" "wallet-1"
                   [AStr "1abc"; AStr "1def"] true]
                (WalletRoutes.mkReply 200 WalletRoutes.Empty)).
  { apply (WalletRoutes.Run_UpdateWallet string _ _ _ _ _ _ (Ok tt)).
    apply WalletRoutes.Run_Done. }
  split; [exact H|].
  exact (proj1 (proj2 (proj2
           (updateWalletRoute_guard string string Sample.lineAddress Sample.validateAddress
              Sample.verifyRequestSignature Sample.stringify Sample.bwsKey
              "BTC" "mainnet" "02ab" "wallet-1" ["1abc"; ""; "1def"]
              (Some "signed:reprocess|/addAddresses02ab|1abc,,1def") _ _ H
              "BTC" "mainnet" "wallet-1" [AStr "1abc"; AStr "1def"] true
              (or_introl eq_refl))))).
Defined.

(** An address that is not valid stops the update with 413 before the
    signature is looked at; a bad signature stops it with 401. *)
Example updateWalletRoute_rejections :
  sample_updateWalletRoute "BTC" "mainnet" "02ab" "wallet-1" ["1abc"; "3xyz"] (Some "forged")
  = WalletRoutes.Done string (WalletRoutes.mkReply 413 (WalletRoutes.Text "Invalid address"))
  /\ sample_updateWalletRoute "BTC" "mainnet" "02ab" "wallet-1" ["1abc"] (Some "forged")
     = WalletRoutes.Done string
         (WalletRoutes.mkReply 401 (WalletRoutes.Text "Authentication failed")).
Proof. split; vm_compute; reflexivity. Qed.
